(** * Timetable solver: slot normalization, greedy relocation, conflict report

    A shallow embedding of [src/solver/index.ts] (with the row type of
    [src/parsers/index.ts]) and the properties of its resolution pass.

    Modelling conventions.
    - A JavaScript string is a [string]: a sequence of 8-bit code units
      (the Latin-1 range of UTF-16).  White space, digits and case mapping
      are the ECMAScript ones restricted to that range.
    - An optional field ([teacher?: string]) is an [option string];
      [x || empty] is [orEmpty x] and the truthiness of [x] is [truthy x].
    - [occupiedSlots], a [Map] of three [Set]s that is only looked up and
      updated, is a [gmap string SlotData] with [gset string] fields.
    - The [Map]s that the code iterates ([slotMap], [teacherMap], ...,
      [separatedTimetables]) are association lists in insertion order, which
      is the iteration order of a JavaScript [Map].
    - A [for] loop with an early [return] is a recursion over the list of
      the values its index takes.
    - [console.log] and [console.warn] are recorded as structured events.
    - The resolution pass is given twice: over the index as a value, and
      over a heap where each [Set] of the index is an object at a location
      chosen by the engine; the two are proved to agree.
    - The lookup table of [normalizeDay] is an association list of its own
      keys, followed by the two properties that a lower-cased key can
      inherit from [Object.prototype]. *)

From Stdlib Require Import String Ascii List Bool Arith Lia DecimalString.
From stdpp Require Import gmap strings list fin_maps.
Import ListNotations.
Local Open Scope string_scope.
Local Open Scope list_scope.

(** ** JavaScript string primitives *)

Module JsString.

(** [WhiteSpace] and [LineTerminator] code units below 256: TAB, LF, VT,
    FF, CR, SP and NBSP.  This is the set of [String.prototype.trim] and
    of the regular expression class [\s]. *)
Definition isWhiteSpace (c : ascii) : bool :=
  let n := nat_of_ascii c in
  (((9 <=? n) && (n <=? 13)) || (n =? 32) || (n =? 160))%nat.

(** The regular expression class [\d]. *)
Definition isDigit (c : ascii) : bool :=
  let n := nat_of_ascii c in ((48 <=? n) && (n <=? 57))%nat.

Definition isEmpty (s : string) : bool :=
  match s with EmptyString => true | String _ _ => false end.

(** Truthiness of a string: only the empty string is falsy. *)
Definition nonEmpty (s : string) : bool := negb (isEmpty s).

Fixpoint trimStart (s : string) : string :=
  match s with
  | EmptyString => EmptyString
  | String c r => if isWhiteSpace c then trimStart r else s
  end.

Fixpoint trimEnd (s : string) : string :=
  match s with
  | EmptyString => EmptyString
  | String c r =>
      let r' := trimEnd r in
      if isWhiteSpace c && isEmpty r' then EmptyString else String c r'
  end.

(** [s.trim()] *)
Definition trim (s : string) : string := trimEnd (trimStart s).

(** Lower-case mapping of one code unit: A-Z, and the Latin-1 capitals
    (192..222 except the multiplication sign 215). *)
Definition lowerChar (c : ascii) : ascii :=
  let n := nat_of_ascii c in
  if (((65 <=? n) && (n <=? 90))
      || ((192 <=? n) && (n <=? 222) && negb (n =? 215)))%nat
  then ascii_of_nat (n + 32) else c.

(** [s.toLowerCase()] *)
Fixpoint toLowerCase (s : string) : string :=
  match s with
  | EmptyString => EmptyString
  | String c r => String (lowerChar c) (toLowerCase r)
  end.

(** Case folding of a regular expression with the [i] flag and without
    the [u] flag: a code unit of 128 or more is never folded onto an ASCII
    letter, so only A-Z fold onto a-z. *)
Definition foldChar (c : ascii) : ascii :=
  let n := nat_of_ascii c in
  if ((65 <=? n) && (n <=? 90))%nat then ascii_of_nat (n + 32) else c.

(** [matchPrefixCI pat s]: [s] starts with the (lower-case) literal [pat]
    up to case; the result is what follows the match. *)
Fixpoint matchPrefixCI (pat s : string) : option string :=
  match pat with
  | EmptyString => Some s
  | String p pat' =>
      match s with
      | EmptyString => None
      | String c r =>
          if Ascii.eqb (foldChar c) p then matchPrefixCI pat' r else None
      end
  end.

(** [s.replace(/^period\s*/i, "P")] *)
Definition replacePeriodPrefix (s : string) : string :=
  match matchPrefixCI "period" s with
  | Some rest => String "P" (trimStart rest)
  | None => s
  end.

Fixpoint takeDigits (s : string) : string :=
  match s with
  | EmptyString => EmptyString
  | String c r => if isDigit c then String c (takeDigits r) else EmptyString
  end.

(** [s.match(/(\d+)/)]: the leftmost maximal run of digits, if any. *)
Fixpoint matchDigits (s : string) : option string :=
  match s with
  | EmptyString => None
  | String c r => if isDigit c then Some (takeDigits s) else matchDigits r
  end.

(** [parseInt(ds)] on a run of decimal digits.  The exact value is used: the
    code only compares it with 1 and 6, and floating-point rounding of a
    long run never moves a value across these bounds. *)
Fixpoint parseDigits (acc : N) (s : string) : N :=
  match s with
  | EmptyString => acc
  | String c r => parseDigits (10 * acc + N.of_nat (nat_of_ascii c - 48))%N r
  end.

Definition parseInt (ds : string) : N := parseDigits 0%N ds.

(** The decimal text of a number below ten, as a template literal prints
    it. *)
Definition digitString (n : N) : string :=
  String (ascii_of_nat (48 + N.to_nat n)) EmptyString.

(** [s.includes(c)] for a one-character needle. *)
Fixpoint includesChar (c : ascii) (s : string) : bool :=
  match s with
  | EmptyString => false
  | String c' r => Ascii.eqb c' c || includesChar c r
  end.

(** [s.split(c)] for a one-character separator: never the empty list. *)
Fixpoint split (c : ascii) (s : string) : list string :=
  match s with
  | EmptyString => [EmptyString]
  | String c' r =>
      if Ascii.eqb c' c then EmptyString :: split c r
      else match split c r with
           | [] => [String c' EmptyString]
           | h :: t => String c' h :: t
           end
  end.

(** [arr.indexOf(x)], with [None] for -1. *)
Fixpoint indexOf (arr : list string) (x : string) : option nat :=
  match arr with
  | [] => None
  | y :: ys => if String.eqb y x then Some 0
               else option_map S (indexOf ys x)
  end.

(** [arr.includes(x)] *)
Definition includes (arr : list string) (x : string) : bool :=
  existsb (String.eqb x) arr.

(** [x || empty] on an optional string. *)
Definition orEmpty (x : option string) : string :=
  match x with Some s => s | None => EmptyString end.

(** Truthiness of an optional string. *)
Definition truthy (x : option string) : bool := nonEmpty (orEmpty x).

End JsString.
Import JsString.

(** ** Data model *)

(** [TimetableRow] of [src/parsers/index.ts]. *)
Record TimetableRow := mkRow {
  day : string;
  period : string;
  subject : option string;
  teacher : option string;
  group : option string;
  room : option string;
  sourceFile : option string
}.

(** [Assignment = TimetableRow & { assignedSlot: string }] *)
Record Assignment := mkAssignment {
  row : TimetableRow;
  assignedSlot : string
}.

Inductive ConflictType := TeacherConflict | RoomConflict | GroupConflict.

Record Conflict := mkConflict {
  type : ConflictType;
  slot : string;
  conflictingEntries : list Assignment;
  resource : string
}.

Record MergeResult := mkMergeResult {
  assignments : list Assignment;
  conflicts : list Conflict;
  separatedTimetables : list (string * list Assignment)
}.

Definition DAYS : list string := ["Mon"; "Tue"; "Wed"; "Thu"; "Fri"].
Definition PERIODS : list string := ["P1"; "P2"; "P3"; "P4"; "P5"; "P6"].

(** ** Normalizer *)

Definition dayMappings : list (string * string) :=
  [ ("monday", "Mon"); ("tuesday", "Tue"); ("wednesday", "Wed");
    ("thursday", "Thu"); ("friday", "Fri");
    ("mon", "Mon"); ("tue", "Tue"); ("wed", "Wed"); ("thu", "Thu");
    ("fri", "Fri") ].

(** [tbl[k]], [None] for [undefined]. *)
Fixpoint tableGet (tbl : list (string * string)) (k : string) : option string :=
  match tbl with
  | [] => None
  | (k', v) :: rest => if String.eqb k' k then Some v else tableGet rest k
  end.

(** [dayMappings] is a plain object, so [dayMappings[k]] also finds what
    the object inherits from [Object.prototype].  Of the inherited property
    names only [constructor] and [__proto__] are in lower case, hence the
    only ones a lower-cased key can hit: the first gives the function
    [Object], the second [Object.prototype].  Both values are truthy; they
    are represented by their string conversion, which is how [slotFromRow]
    uses the result (in a template literal). *)
Definition inheritedProperty (k : string) : option string :=
  if String.eqb k "constructor"
  then Some "function Object() { [native code] }"
  else if String.eqb k "__proto__" then Some "[object Object]"
  else None.

(** [return dayMappings[dayLower] || day]: an own key gives its day, an
    inherited key gives the inherited value, and any other day is returned
    as it came. *)
Definition normalizeDay (day : string) : string :=
  let dayLower := toLowerCase day in
  match tableGet dayMappings dayLower with
  | Some v => if nonEmpty v then v else day
  | None =>
      match inheritedProperty dayLower with
      | Some inherited => inherited
      | None => day
      end
  end.

(** The first run of digits decides when its value is 1 to 6; in every other
    case the text is returned as it came (both remaining [return]s of the
    source give [period]). *)
Definition normalizePeriod (period : string) : string :=
  let fallback := if includes PERIODS period then period else period in
  match matchDigits period with
  | Some ds =>
      let periodNum := parseInt ds in
      if (1 <=? periodNum)%N && (periodNum <=? 6)%N
      then "P" +:+ digitString periodNum
      else fallback
  | None => fallback
  end.

(** The guard [!normalizedDay || !normalizedPeriod] tests for the empty
    string. *)
Definition slotFromRow (r : TimetableRow) : string :=
  let day := trim (day r) in
  let period := trim (replacePeriodPrefix (period r)) in
  let normalizedDay := normalizeDay day in
  let normalizedPeriod := normalizePeriod period in
  if isEmpty normalizedDay || isEmpty normalizedPeriod then EmptyString
  else normalizedDay +:+ "-" +:+ normalizedPeriod.

(** ** Occupancy index *)

Record SlotData := mkSlotData {
  teachers : gset string;
  rooms : gset string;
  groups : gset string
}.

(** A slot without entry is available; otherwise none of the non-empty
    identities may be in the sets of the entry. *)
Definition isSlotAvailable (slot teacher room group : string)
    (occupiedSlots : gmap string SlotData) : bool :=
  match occupiedSlots !! slot with
  | None => true
  | Some slotData =>
      let teacherConflict :=
        nonEmpty teacher && bool_decide (teacher ∈ teachers slotData) in
      let roomConflict :=
        nonEmpty room && bool_decide (room ∈ rooms slotData) in
      let groupConflict :=
        nonEmpty group && bool_decide (group ∈ groups slotData) in
      negb teacherConflict && negb roomConflict && negb groupConflict
  end.

(** [if (x && x.trim()) set.add(x.trim())] *)
Definition addTrimmed (x : string) (set : gset string) : gset string :=
  if nonEmpty x && nonEmpty (trim x) then {[trim x]} ∪ set else set.

(** The entry of [slot] is created when missing; the sets of the entry are
    then updated in place, which is an update of the map at [slot]. *)
Definition addToSlot (slot teacher room group : string)
    (occupiedSlots : gmap string SlotData) : gmap string SlotData :=
  let created :=
    match occupiedSlots !! slot with
    | Some _ => occupiedSlots
    | None => <[slot := mkSlotData ∅ ∅ ∅]> occupiedSlots
    end in
  match created !! slot with
  | Some slotData =>
      <[slot := {| teachers := addTrimmed teacher (teachers slotData);
                   rooms := addTrimmed room (rooms slotData);
                   groups := addTrimmed group (groups slotData) |}]> created
  | None => created
  end.

(** The update of one entry, and the entry a missing slot starts from. *)
Definition emptySlotData : SlotData := mkSlotData ∅ ∅ ∅.

Definition addTrimmedAll (teacher room group : string) (slotData : SlotData)
    : SlotData :=
  {| teachers := addTrimmed teacher (teachers slotData);
     rooms := addTrimmed room (rooms slotData);
     groups := addTrimmed group (groups slotData) |}.

(** ** Relocation search *)

(** The template literal [`${day}-${period}`]. *)
Definition slotKey (day period : string) : string := day +:+ "-" +:+ period.

(** [arr[i]] for an index in range. *)
Definition at_ (arr : list string) (i : nat) : string := nth i arr EmptyString.

(** The values of [x] in [for (x = a; x < n; x++)]. *)
Definition upFrom (a n : nat) : list nat := seq a (n - a).

(** The values of [x] in [for (x = a - 1; x >= 0; x--)]. *)
Definition downBelow (a : nat) : list nat := rev (seq 0 a).

(** One loop over periods of a fixed day: the first available slot wins. *)
Fixpoint tryPeriods (test : string -> bool) (day : string) (ps : list nat)
    : option string :=
  match ps with
  | [] => None
  | p :: ps' =>
      let slot := slotKey day (at_ PERIODS p) in
      if test slot then Some slot else tryPeriods test day ps'
  end.

(** A loop over days, each with the inner loop over all periods. *)
Fixpoint tryDays (test : string -> bool) (ds : list nat) : option string :=
  match ds with
  | [] => None
  | d :: ds' =>
      match tryPeriods test (at_ DAYS d) (upFrom 0 (length PERIODS)) with
      | Some slot => Some slot
      | None => tryDays test ds'
      end
  end.

(** [const [currentDay, currentPeriod] = currentSlot.split('-')] followed by
    the two [indexOf]; a missing second component is [undefined], which
    [indexOf] does not find. *)
Definition dayComponent (currentSlot : string) : string :=
  nth 0 (split "-" currentSlot) EmptyString.

Definition periodComponent (currentSlot : string) : option string :=
  nth_error (split "-" currentSlot) 1.

Definition slotIndices (currentSlot : string) : option (string * nat * nat) :=
  let currentDay := dayComponent currentSlot in
  let currentPeriod := periodComponent currentSlot in
  match indexOf DAYS currentDay with
  | None => None
  | Some dayIndex =>
      match currentPeriod with
      | None => None
      | Some cp =>
          match indexOf PERIODS cp with
          | None => None
          | Some periodIndex => Some (currentDay, dayIndex, periodIndex)
          end
      end
  end.

(** The four loops in source order; [None] is [null]. *)
Definition findNextAvailableSlot (currentSlot teacher room group : string)
    (occupiedSlots : gmap string SlotData) : option string :=
  let test slot := isSlotAvailable slot teacher room group occupiedSlots in
  if isEmpty currentSlot then None else
  match slotIndices currentSlot with
  | None => None
  | Some (currentDay, dayIndex, periodIndex) =>
      (* next periods on the same day *)
      match tryPeriods test currentDay
              (upFrom (periodIndex + 1) (length PERIODS)) with
      | Some slot => Some slot
      | None =>
      (* next days *)
      match tryDays test (upFrom (dayIndex + 1) (length DAYS)) with
      | Some slot => Some slot
      | None =>
      (* previous periods on the same day *)
      match tryPeriods test currentDay (downBelow periodIndex) with
      | Some slot => Some slot
      | None =>
      (* previous days *)
      match tryDays test (downBelow dayIndex) with
      | Some slot => Some slot
      | None => None
      end end end end
  end.

(** ** Resolution pass *)

(** Insertion-ordered [Map<string, T[]>]: [if (!m.has(k)) m.set(k, []);
    m.get(k).push(a)].  An existing key keeps its position. *)
Fixpoint mapPush {A : Type} (k : string) (a : A) (m : list (string * list A))
    : list (string * list A) :=
  match m with
  | [] => [(k, [a])]
  | (k', l) :: rest =>
      if String.eqb k' k then (k', l ++ [a]) :: rest
      else (k', l) :: mapPush k a rest
  end.

(** The predicate of [rows.filter] in [mergeAndResolve]. *)
Definition isValidRow (r : TimetableRow) : bool :=
  let slot := slotFromRow r in
  nonEmpty slot && includesChar "-" slot
  && (truthy (teacher r) || truthy (room r) || truthy (group r)).

(** What the pass writes to the console. *)
Inductive ConsoleEvent :=
| Moved (subject : option string) (originalSlot alternativeSlot : string)
| NoAlternative (subject : option string) (originalSlot : string).

(** The variables the loop of [mergeAndResolve] updates. *)
Record PassState := mkPassState {
  st_assignments : list Assignment;
  st_separated : list (string * list Assignment);
  st_occupied : gmap string SlotData;
  st_console : list ConsoleEvent
}.

Definition initialState : PassState := mkPassState [] [] ∅ [].

(** The slot chosen for a row, with the console event of the choice. *)
Definition chooseSlot (r : TimetableRow) (occupiedSlots : gmap string SlotData)
    : string * list ConsoleEvent :=
  let originalSlot := slotFromRow r in
  let teacher := trim (orEmpty (teacher r)) in
  let room := trim (orEmpty (room r)) in
  let group := trim (orEmpty (group r)) in
  let hasConflict :=
    negb (isSlotAvailable originalSlot teacher room group occupiedSlots) in
  if hasConflict then
    match findNextAvailableSlot originalSlot teacher room group
            occupiedSlots with
    | Some alternativeSlot =>
        if nonEmpty alternativeSlot
        then (alternativeSlot, [Moved (subject r) originalSlot alternativeSlot])
        else (originalSlot, [NoAlternative (subject r) originalSlot])
    | None => (originalSlot, [NoAlternative (subject r) originalSlot])
    end
  else (originalSlot, []).

(** The body of [for (const row of validRows)]. *)
Definition resolveRow (st : PassState) (r : TimetableRow) : PassState :=
  let teacher := trim (orEmpty (teacher r)) in
  let room := trim (orEmpty (room r)) in
  let group := trim (orEmpty (group r)) in
  let sourceFile :=
    if truthy (sourceFile r) then orEmpty (sourceFile r) else "unknown" in
  let '(assignedSlot, events) := chooseSlot r (st_occupied st) in
  let assignment := mkAssignment r assignedSlot in
  {| st_assignments := st_assignments st ++ [assignment];
     st_separated := mapPush sourceFile assignment (st_separated st);
     st_occupied := addToSlot assignedSlot teacher room group (st_occupied st);
     st_console := st_console st ++ events |}.

Definition resolveRows (st : PassState) (validRows : list TimetableRow)
    : PassState :=
  fold_left resolveRow validRows st.

(** ** Conflict reporter *)

(** Grouping into an insertion-ordered map; an element with an empty key is
    skipped ([if (!assignment.assignedSlot) continue], [if (teacher)]). *)
Definition groupByKey (key : Assignment -> string) (l : list Assignment)
    : list (string * list Assignment) :=
  fold_left (fun m a => if nonEmpty (key a) then mapPush (key a) a m else m)
            l [].

(** The elements of a group: those with the given key. *)
Definition sameKey (key : Assignment -> string) (k : string) (a : Assignment)
    : bool :=
  String.eqb (key a) k.

Definition teacherKey (a : Assignment) : string :=
  trim (orEmpty (teacher (row a))).
Definition roomKey (a : Assignment) : string :=
  trim (orEmpty (room (row a))).
Definition groupKey (a : Assignment) : string :=
  trim (orEmpty (group (row a))).

(** One of the three checks of a slot: group by the resource and report
    every resource held by more than one entry. *)
Definition conflictsOn (ty : ConflictType) (key : Assignment -> string)
    (slot : string) (slotAssignments : list Assignment) : list Conflict :=
  flat_map (fun '(res, entries) =>
              if (1 <? length entries)%nat
              then [mkConflict ty slot entries res] else [])
           (groupByKey key slotAssignments).

Definition detectConflicts (assignments : list Assignment) : list Conflict :=
  let slotMap := groupByKey assignedSlot assignments in
  flat_map (fun '(slot, slotAssignments) =>
              if (length slotAssignments <=? 1)%nat then []
              else conflictsOn TeacherConflict teacherKey slot slotAssignments
                   ++ conflictsOn RoomConflict roomKey slot slotAssignments
                   ++ conflictsOn GroupConflict groupKey slot slotAssignments)
           slotMap.

Definition mergeState (rows : list TimetableRow) : PassState :=
  resolveRows initialState (List.filter isValidRow rows).

Definition mergeAndResolve (rows : list TimetableRow) : MergeResult :=
  let st := mergeState rows in
  {| assignments := st_assignments st;
     conflicts := detectConflicts (st_assignments st);
     separatedTimetables := st_separated st |}.

(** ** The search with its probes

    The same four loops, returning also the slots on which
    [isSlotAvailable] was called, in call order. *)

Fixpoint probePeriods (test : string -> bool) (day : string) (ps : list nat)
    : option string * list string :=
  match ps with
  | [] => (None, [])
  | p :: ps' =>
      let slot := slotKey day (at_ PERIODS p) in
      if test slot then (Some slot, [slot])
      else let '(res, log) := probePeriods test day ps' in (res, slot :: log)
  end.

Definition orThen (first next : option string * list string)
    : option string * list string :=
  match first with
  | (Some slot, log) => (Some slot, log)
  | (None, log) => (fst next, log ++ snd next)
  end.

Fixpoint probeDays (test : string -> bool) (ds : list nat)
    : option string * list string :=
  match ds with
  | [] => (None, [])
  | d :: ds' =>
      orThen (probePeriods test (at_ DAYS d) (upFrom 0 (length PERIODS)))
             (probeDays test ds')
  end.

Definition findNextAvailableSlotProbes (currentSlot teacher room group : string)
    (occupiedSlots : gmap string SlotData) : option string * list string :=
  let test slot := isSlotAvailable slot teacher room group occupiedSlots in
  if isEmpty currentSlot then (None, []) else
  match slotIndices currentSlot with
  | None => (None, [])
  | Some (currentDay, dayIndex, periodIndex) =>
      orThen (probePeriods test currentDay
                (upFrom (periodIndex + 1) (length PERIODS)))
     (orThen (probeDays test (upFrom (dayIndex + 1) (length DAYS)))
     (orThen (probePeriods test currentDay (downBelow periodIndex))
             (probeDays test (downBelow dayIndex))))
  end.

(** The slots of one day, periods increasing. *)
Definition daySlots (d : nat) : list string :=
  map (fun p => slotKey (at_ DAYS d) (at_ PERIODS p)) (upFrom 0 (length PERIODS)).

(** The candidates of the four loops, in the order the loops reach them. *)
Definition laterPeriods (currentDay : string) (periodIndex : nat) : list string :=
  map (fun p => slotKey currentDay (at_ PERIODS p))
      (upFrom (periodIndex + 1) (length PERIODS)).
Definition laterDays (dayIndex : nat) : list string :=
  flat_map daySlots (upFrom (dayIndex + 1) (length DAYS)).
Definition earlierPeriods (currentDay : string) (periodIndex : nat) : list string :=
  map (fun p => slotKey currentDay (at_ PERIODS p)) (downBelow periodIndex).
Definition earlierDays (dayIndex : nat) : list string :=
  flat_map daySlots (downBelow dayIndex).

Definition searchOrder (currentDay : string) (dayIndex periodIndex : nat)
    : list string :=
  laterPeriods currentDay periodIndex ++ laterDays dayIndex
  ++ earlierPeriods currentDay periodIndex ++ earlierDays dayIndex.

(** The candidates of a search started at [currentSlot]; none when the
    early returns are taken. *)
Definition candidateOrder (currentSlot : string) : list string :=
  if isEmpty currentSlot then [] else
  match slotIndices currentSlot with
  | Some (currentDay, dayIndex, periodIndex) =>
      searchOrder currentDay dayIndex periodIndex
  | None => []
  end.

(** The early returns of [findNextAvailableSlot]: an empty slot, a first
    component that is not a day, a second component that is missing or not
    a period. *)
Definition unparseable (currentSlot : string) : bool :=
  isEmpty currentSlot
  || negb (includes DAYS (dayComponent currentSlot))
  || match periodComponent currentSlot with
     | None => true
     | Some cp => negb (includes PERIODS cp)
     end.

(** The prefix of a candidate list that a first-match loop tests. *)
Fixpoint probed (test : string -> bool) (cands : list string) : list string :=
  match cands with
  | [] => []
  | s :: rest => s :: (if test s then [] else probed test rest)
  end.

(** ** The grid *)

(** The 30 keys of the grid, day by day. *)
Definition canonicalSlots : list string :=
  flat_map (fun d => map (slotKey d) PERIODS) DAYS.

Definition isCanonicalSlot (s : string) : bool := includes canonicalSlots s.

(** The key of the grid cell with the given indices. *)
Definition gridSlot (d p : nat) : string := slotKey (at_ DAYS d) (at_ PERIODS p).

(** ** The pass as a transition relation

    One constructor per branch of the loop body. *)

Definition commitRow (st : PassState) (r : TimetableRow) (assignedSlot : string)
    (events : list ConsoleEvent) : PassState :=
  let assignment := mkAssignment r assignedSlot in
  {| st_assignments := st_assignments st ++ [assignment];
     st_separated :=
       mapPush (if truthy (sourceFile r) then orEmpty (sourceFile r)
                else "unknown") assignment (st_separated st);
     st_occupied :=
       addToSlot assignedSlot (trim (orEmpty (teacher r)))
         (trim (orEmpty (room r))) (trim (orEmpty (group r))) (st_occupied st);
     st_console := st_console st ++ events |}.

Definition availableFor (r : TimetableRow) (slot : string)
    (occupiedSlots : gmap string SlotData) : bool :=
  isSlotAvailable slot (trim (orEmpty (teacher r))) (trim (orEmpty (room r)))
    (trim (orEmpty (group r))) occupiedSlots.

Definition relocationOf (r : TimetableRow)
    (occupiedSlots : gmap string SlotData) : option string :=
  findNextAvailableSlot (slotFromRow r) (trim (orEmpty (teacher r)))
    (trim (orEmpty (room r))) (trim (orEmpty (group r))) occupiedSlots.

(** ** The pass with its objects

    [occupiedSlots] holds, for each slot, an object with three [Set]s, and
    the code mutates those sets through the object it takes out of the map.
    In this second rendering of the same code the sets are objects of a
    heap: [new Set()] takes the location that the engine chooses, a set is
    read and extended through its location, and an invocation starts in
    whatever heap and console the process has at that moment (what earlier
    code, or an earlier invocation, left there). *)





















(** ** Observations used in the statements *)

(** The occupancy index as the loop finds it when it reaches the valid row
    of position [j]: the commitments of the valid rows before it. *)
Definition indexBefore (rows : list TimetableRow) (j : nat)
    : gmap string SlotData :=
  st_occupied
    (resolveRows initialState (firstn j (List.filter isValidRow rows))).

(** A resource identity is recorded at a slot of the occupancy index. *)
Definition setOf (kind : ConflictType) (slotData : SlotData) : gset string :=
  match kind with
  | TeacherConflict => teachers slotData
  | RoomConflict => rooms slotData
  | GroupConflict => groups slotData
  end.

Definition committed (occupiedSlots : gmap string SlotData)
    (kind : ConflictType) (slot res : string) : bool :=
  match occupiedSlots !! slot with
  | Some slotData => bool_decide (res ∈ setOf kind slotData)
  | None => false
  end.

(** The identity a row holds for a kind of resource, as the pass and the
    reporter compare it. *)
Definition rowResource (kind : ConflictType) (r : TimetableRow) : string :=
  match kind with
  | TeacherConflict => trim (orEmpty (teacher r))
  | RoomConflict => trim (orEmpty (room r))
  | GroupConflict => trim (orEmpty (group r))
  end.

Definition resourceKey (kind : ConflictType) (a : Assignment) : string :=
  rowResource kind (row a).

(** All the assignments stored in a grouping. *)
Definition entriesOf (m : list (string * list Assignment)) : list Assignment :=
  concat (map snd m).

(** A row shows up in some output of the pass. *)
Definition appearsIn (res : MergeResult) (r : TimetableRow) : Prop :=
  In r (map row (assignments res))
  \/ (exists c a, In c (conflicts res) /\ In a (conflictingEntries c)
                   /\ row a = r)
  \/ In r (map row (entriesOf (separatedTimetables res))).

(** Lookup in an insertion-ordered map. *)
Fixpoint mapGet {A : Type} (k : string) (m : list (string * list A))
    : option (list A) :=
  match m with
  | [] => None
  | (k', l) :: rest => if String.eqb k' k then Some l else mapGet k rest
  end.

(** ** The wording of the specification, for comparison *)

(** Validity gate as worded: a non-empty slot and at least one of teacher,
    room, group non-empty after trimming. *)
Definition specValidRow (r : TimetableRow) : bool :=
  nonEmpty (slotFromRow r)
  && (nonEmpty (trim (orEmpty (teacher r)))
      || nonEmpty (trim (orEmpty (room r)))
      || nonEmpty (trim (orEmpty (group r)))).

(** Fourth phase as worded: the preceding days in day order, Mon first. *)
Definition specEarlierDays (dayIndex : nat) : list string :=
  flat_map daySlots (upFrom 0 dayIndex).

Definition specSearchOrder (currentDay : string) (dayIndex periodIndex : nat)
    : list string :=
  laterPeriods currentDay periodIndex ++ laterDays dayIndex
  ++ earlierPeriods currentDay periodIndex ++ specEarlierDays dayIndex.

(** Slot parsing as worded: the text before the first separator and the
    text after it. *)
Fixpoint beforeFirst (c : ascii) (s : string) : string :=
  match s with
  | EmptyString => EmptyString
  | String c' r => if Ascii.eqb c' c then EmptyString
                   else String c' (beforeFirst c r)
  end.

Fixpoint afterFirst (c : ascii) (s : string) : string :=
  match s with
  | EmptyString => EmptyString
  | String c' r => if Ascii.eqb c' c then r else afterFirst c r
  end.

Definition specUnparseable (currentSlot : string) : bool :=
  isEmpty currentSlot
  || negb (includes DAYS (beforeFirst "-" currentSlot))
  || negb (includes PERIODS (afterFirst "-" currentSlot)).

(** ** Sample inputs *)

Definition rowT : TimetableRow :=
  mkRow "Mon" "P1" None (Some "T") None None None.

(** A row of scenario B: Mon, P1, teacher T, the other fields free. *)
Definition asksMonP1WithT (r : TimetableRow) : Prop :=
  day r = "Mon" /\ period r = "P1" /\ teacher r = Some "T".

Definition rowSaturday : TimetableRow :=
  mkRow "Saturday" "P1" None (Some "T") None None None.


Definition rowDashedDay : TimetableRow :=
  mkRow "Mon-P1" "P3" None (Some "T") None None None.

(** Teacher [T] holds every slot of the grid except Mon-P1 and Tue-P1. *)
Definition busyButTwo : gmap string SlotData :=
  fold_right (fun s occ => addToSlot s "T" EmptyString EmptyString occ) ∅
    (List.filter (fun s => negb (String.eqb s "Mon-P1" || String.eqb s "Tue-P1"))
       canonicalSlots).

(** ** Timetable view and its rendering *)

(** A [Map] in insertion order whose keys are compared by [eqb]:
    [if (!m.has(k)) m.set(k, init)] followed by an in-place update [f] of
    the value stored at [k].  An existing key keeps its position. *)
Fixpoint upsert {K V : Type} (eqb : K -> K -> bool) (k : K) (init : V)
    (f : V -> V) (m : list (K * V)) : list (K * V) :=
  match m with
  | [] => [(k, f init)]
  | (k', v) :: rest =>
      if eqb k' k then (k', f v) :: rest
      else (k', v) :: upsert eqb k init f rest
  end.

(** [m.get(k)] *)
Fixpoint assocGet {K V : Type} (eqb : K -> K -> bool) (k : K)
    (m : list (K * V)) : option V :=
  match m with
  | [] => None
  | (k', v) :: rest => if eqb k' k then Some v else assocGet eqb k rest
  end.

(** Equality of [Map] keys that are a string or [undefined]. *)
Definition optionEqb (x y : option string) : bool :=
  match x, y with
  | Some a, Some b => String.eqb a b
  | None, None => true
  | _, _ => false
  end.

(** [getTimetableView]: day, then period, then the assignments of the cell.
    The period key is [undefined] ([None]) for a slot without a dash. *)
Definition getTimetableView (assignments : list Assignment)
    : list (string * list (option string * list Assignment)) :=
  fold_left
    (fun timetableView assignment =>
       if isEmpty (assignedSlot assignment) then timetableView
       else
         let day := dayComponent (assignedSlot assignment) in
         let period := periodComponent (assignedSlot assignment) in
         upsert String.eqb day []
           (upsert optionEqb period [] (fun cell => cell ++ [assignment]))
           timetableView)
    assignments [].

(** [timetableView.get(day)?.get(period) || []] *)
Definition viewCell
    (timetableView : list (string * list (option string * list Assignment)))
    (day period : string) : list Assignment :=
  match assocGet String.eqb day timetableView with
  | None => []
  | Some dayMap =>
      match assocGet optionEqb (Some period) dayMap with
      | None => []
      | Some cell => cell
      end
  end.

(** The assignments a cell of the view is made of: a non-empty slot whose
    first two dash-separated components are the day and the period. *)
Definition inCell (day period : string) (a : Assignment) : bool :=
  nonEmpty (assignedSlot a)
  && String.eqb (dayComponent (assignedSlot a)) day
  && optionEqb (periodComponent (assignedSlot a)) (Some period).

(** [timetableView.get(day)?.get(period)] for a period key that is a string
    or [undefined]; [None] when the day or the period key is missing. *)
Definition viewEntry
    (timetableView : list (string * list (option string * list Assignment)))
    (day : string) (period : option string) : option (list Assignment) :=
  match assocGet String.eqb day timetableView with
  | None => None
  | Some dayMap => assocGet optionEqb period dayMap
  end.

(** The assignments an entry of the view is made of, the period key being
    [undefined] for a slot without dash. *)
Definition inEntry (day : string) (period : option string) (a : Assignment)
    : bool :=
  nonEmpty (assignedSlot a)
  && String.eqb (dayComponent (assignedSlot a)) day
  && optionEqb (periodComponent (assignedSlot a)) period.

(** [c.repeat(n)] for a one-character string. *)
Fixpoint repeatChar (c : ascii) (n : nat) : string :=
  match n with
  | O => EmptyString
  | S n' => String c (repeatChar c n')
  end.

(** [s.padEnd(n)]: spaces are added up to length [n]; a longer string is
    left as it is. *)
Definition padEnd (n : nat) (s : string) : string :=
  s +:+ repeatChar " " (n - String.length s).

(** The line feed. *)
Definition newline : string := String (ascii_of_nat 10) EmptyString.

(** The decimal text of a number, as a template literal prints it. *)
Definition natToString (n : nat) : string :=
  NilEmpty.string_of_uint (Nat.to_uint n).

(** The text of one cell before truncation. *)
Definition cellContent (cell : list Assignment) : string :=
  match cell with
  | [] => "-"
  | [a] => if truthy (subject (row a)) then orEmpty (subject (row a))
           else "N/A"
  | _ => "[" +:+ natToString (length cell) +:+ " items]"
  end.

Definition displayTimetable (assignments : list Assignment) : string :=
  let timetableView := getTimetableView assignments in
  let output := "TIMETABLE VIEW:" +:+ newline in
  let output := output +:+ repeatChar "=" 80 +:+ newline +:+ newline in
  (* header *)
  let output := output +:+ padEnd 10 "Day" in
  let output :=
    fold_left (fun out period => out +:+ padEnd 15 period) PERIODS output in
  let output := output +:+ newline in
  let output := output +:+ repeatChar "-" 80 +:+ newline in
  (* content *)
  fold_left
    (fun out day =>
       let out := out +:+ padEnd 10 day in
       let out :=
         fold_left
           (fun out period =>
              let cell := viewCell timetableView day period in
              out +:+ padEnd 15 (substring 0 14 (cellContent cell)))
           PERIODS out in
       out +:+ newline)
    DAYS output.

(** ** The pass, observed *)

(** [row.sourceFile || "unknown"], the key of the per-source grouping. *)
Definition sourceKey (a : Assignment) : string :=
  if truthy (sourceFile (row a)) then orEmpty (sourceFile (row a))
  else "unknown".

(** The warning of an exhausted relocation. *)
Definition isNoAlternative (e : ConsoleEvent) : bool :=
  match e with
  | NoAlternative _ _ => true
  | Moved _ _ _ => false
  end.

(** Two assignments hold the same non-empty resource of some kind at the
    same slot. *)
Definition clashes (a b : Assignment) : Prop :=
  assignedSlot a = assignedSlot b
  /\ exists kind, resourceKey kind a = resourceKey kind b
                  /\ nonEmpty (resourceKey kind a) = true.

(** The argument of [isSlotAvailable] and [addToSlot] for a kind of
    resource. *)
Definition resourceArg (kind : ConflictType) (teacher room group : string)
    : string :=
  match kind with
  | TeacherConflict => teacher
  | RoomConflict => room
  | GroupConflict => group
  end.

(** The occupancy index records exactly what the assignments hold. *)
Definition indexMatches (st : PassState) : Prop :=
  forall kind s res,
    committed (st_occupied st) kind s res = true
    <-> exists a, In a (st_assignments st) /\ assignedSlot a = s
                  /\ resourceKey kind a = res /\ nonEmpty res = true.

(** The later assignment of every clash kept its original slot, and the
    console has the warning of its exhausted relocation. *)
Definition clashesWarned (st : PassState) : Prop :=
  forall i j a b,
    (i < j)%nat ->
    nth_error (st_assignments st) i = Some a ->
    nth_error (st_assignments st) j = Some b ->
    clashes a b ->
    assignedSlot b = slotFromRow (row b)
    /\ In (NoAlternative (subject (row b)) (slotFromRow (row b)))
          (st_console st).

(** Every warning on the console comes with a clash. *)
Definition warningsClash (st : PassState) : Prop :=
  forall e,
    In e (st_console st) -> isNoAlternative e = true ->
    exists i j a b,
      (i < j)%nat /\ nth_error (st_assignments st) i = Some a
      /\ nth_error (st_assignments st) j = Some b /\ clashes a b.

(** ** Parsers: [src/parsers/index.ts] *)

(** A parsed record ([raw: any]) is an object whose property values are
    strings, as every caller builds it: a finite map from property names to
    strings.  [raw.a || raw.b || ... || empty] is the first non-empty value
    among the listed properties. *)
Fixpoint firstTruthy (raw : gmap string string) (keys : list string) : string :=
  match keys with
  | [] => EmptyString
  | k :: rest =>
      match raw !! k with
      | Some v => if nonEmpty v then v else firstTruthy raw rest
      | None => firstTruthy raw rest
      end
  end.

Definition dayKeys : list string :=
  ["day"; "Day"; "DAY"; "Day"; "day"; "weekday"; "Weekday"; "DAY_OF_WEEK"].
Definition periodKeys : list string :=
  ["period"; "Period"; "PERIOD"; "Time"; "Slot"; "Period"].
Definition subjectKeys : list string :=
  ["subject"; "Subject"; "SUBJECT"; "Class"; "Course"; "Lesson"].
Definition teacherKeys : list string :=
  ["teacher"; "Teacher"; "Staff"; "Lecturer"].
Definition groupKeys : list string :=
  ["group"; "Group"; "Groups"; "ClassGroup"].
Definition roomKeys : list string := ["room"; "Room"; "Venue"].

(** [normalizeRow]: every field is a string, and every field is trimmed by
    the final loop over the keys of [out]. *)
Definition normalizeRow (raw : gmap string string) (source : string)
    : TimetableRow :=
  {| day := trim (firstTruthy raw dayKeys);
     period := trim (firstTruthy raw periodKeys);
     subject := Some (trim (firstTruthy raw subjectKeys));
     teacher := Some (trim (firstTruthy raw teacherKeys));
     group := Some (trim (firstTruthy raw groupKeys));
     room := Some (trim (firstTruthy raw roomKeys));
     sourceFile := Some (trim source) |}.

Definition isLF (c : ascii) : bool := (nat_of_ascii c =? 10)%nat.
Definition isCR (c : ascii) : bool := (nat_of_ascii c =? 13)%nat.

(** [text.split(/\r?\n/)]: cut at every line feed, taking a carriage return
    just before it into the separator. *)
Fixpoint splitLines (text : string) : list string :=
  match text with
  | EmptyString => [EmptyString]
  | String c rest =>
      if isLF c then EmptyString :: splitLines rest
      else
        match rest with
        | String c' rest' =>
            if isCR c && isLF c' then EmptyString :: splitLines rest'
            else match splitLines rest with
                 | [] => [String c EmptyString]
                 | h :: t => String c h :: t
                 end
        | EmptyString => [String c EmptyString]
        end
  end.

(** [text.split(/\r?\n/).map(l => l.trim()).filter(Boolean)] *)
Definition textLines (text : string) : list string :=
  List.filter nonEmpty (map trim (splitLines text)).

(** [lines.findIndex(f)], with [None] for -1. *)
Fixpoint findIndex (f : string -> bool) (lines : list string) : option nat :=
  match lines with
  | [] => None
  | l :: rest => if f l then Some 0%nat else option_map S (findIndex f rest)
  end.

Definition isDayHeader (l : string) : bool := String.eqb (toLowerCase l) "day".

Definition fields : list string :=
  ["day"; "period"; "subject"; "teacher"; "group"; "room"].

(** The object built for the record that starts at line [i]:
    [r[fields[j]] = lines[i + j] || empty] for each field, then
    [r.sourceFile = source]. *)
Definition recordAt (lines : list string) (i : nat) (source : string)
    : gmap string string :=
  <["sourceFile" := source]>
    (fold_left
       (fun r j => <[nth j fields EmptyString := nth (i + j) lines EmptyString]> r)
       (seq 0 (length fields)) ∅).

(** The loop [for (i = start; i + fields.length - 1 < lines.length;
    i += fields.length)]; [fuel] bounds the number of rounds. *)
Fixpoint recordLoop (fuel : nat) (lines : list string) (i : nat)
    (source : string) : list TimetableRow :=
  match fuel with
  | O => []
  | S fuel' =>
      if (i + length fields - 1 <? length lines)%nat
      then normalizeRow (recordAt lines i source) source
           :: recordLoop fuel' lines (i + length fields) source
      else []
  end.

(** [parseTextTable]; the loop makes fewer rounds than there are lines. *)
Definition parseTextTable (text source : string) : list TimetableRow :=
  let lines := textLines text in
  match findIndex isDayHeader lines with
  | None => []
  | Some headerIdx =>
      recordLoop (length lines) lines (headerIdx + length fields) source
  end.

(** The records seen as consecutive groups of six lines; a shorter rest is
    left over. *)
Fixpoint recordsOf (source : string) (ls : list string) : list TimetableRow :=
  match ls with
  | a :: b :: c :: d :: e :: f :: rest =>
      mkRow (trim a) (trim b) (Some (trim c)) (Some (trim d))
        (Some (trim e)) (Some (trim f)) (Some (trim source))
      :: recordsOf source rest
  | _ => []
  end.

(** A line as [textLines] keeps it: trimmed and not empty. *)
Definition isCleanLine (l : string) : Prop :=
  nonEmpty l = true /\ trim l = l.

(** A property or alias that gives nothing: absent or the empty string. *)
Definition givesNothing (raw : gmap string string) (k : string) : Prop :=
  raw !! k = None \/ raw !! k = Some EmptyString.

(** The fields of a row that [normalizeRow] reads from a record, the
    aliases each one is read from, in the order of the source, and the field
    of a row. *)
Inductive RowField := FDay | FPeriod | FSubject | FTeacher | FGroup | FRoom.

Definition fieldKeys (fld : RowField) : list string :=
  match fld with
  | FDay => dayKeys
  | FPeriod => periodKeys
  | FSubject => subjectKeys
  | FTeacher => teacherKeys
  | FGroup => groupKeys
  | FRoom => roomKeys
  end.

Definition fieldOf (fld : RowField) (r : TimetableRow) : option string :=
  match fld with
  | FDay => Some (day r)
  | FPeriod => Some (period r)
  | FSubject => subject r
  | FTeacher => teacher r
  | FGroup => group r
  | FRoom => room r
  end.

(** The carriage return, for sample texts. *)
Definition carriageReturn : string := String (ascii_of_nat 13) EmptyString.

(** A text table: the six headers, one record, and one stray line. *)
Definition sampleTable : string :=
  "Notes" +:+ newline
  +:+ " DAY " +:+ carriageReturn +:+ newline
  +:+ "Period" +:+ newline +:+ "Subject" +:+ newline +:+ "Teacher" +:+ newline
  +:+ "Group" +:+ newline +:+ "Room" +:+ newline +:+ newline
  +:+ "Monday" +:+ newline +:+ "Period 1" +:+ newline +:+ "Math" +:+ newline
  +:+ "Alice" +:+ newline +:+ "G1" +:+ newline +:+ "R1" +:+ newline
  +:+ "Tuesday".

(** ** Upload route: [src/routes/upload.ts] *)

(** The characters [[^/.]] of the extension pattern. *)
Definition isExtChar (c : ascii) : bool :=
  negb (Ascii.eqb c "/") && negb (Ascii.eqb c ".").

Fixpoint allExtChars (s : string) : bool :=
  match s with
  | EmptyString => true
  | String c r => isExtChar c && allExtChars r
  end.

(** [s.replace(/\.[^/.]+$/, empty)]: the leftmost dot that is followed, up
    to the end, by one or more characters other than slash and dot is
    removed with what follows it. *)
Fixpoint stripExtension (s : string) : string :=
  match s with
  | EmptyString => EmptyString
  | String c r =>
      if Ascii.eqb c "." && nonEmpty r && allExtChars r then EmptyString
      else String c (stripExtension r)
  end.

(** The name of the archive entry written for a source file. *)
Definition zipEntryName (sourceFile : string) : string :=
  "resolved_" +:+ stripExtension sourceFile +:+ ".docx".

(** * Properties *)

Example normalizeDay_ex :
  normalizeDay "Mon" = "Mon" /\ normalizeDay "MON" = "Mon" /\
  normalizeDay "Monday" = "Mon" /\ normalizeDay "Saturday" = "Saturday".
Proof. repeat split; reflexivity. Qed.

Example normalizePeriod_ex :
  normalizePeriod (trim (replacePeriodPrefix "Period 3")) = "P3" /\
  normalizePeriod "P3" = "P3" /\ normalizePeriod "3" = "P3" /\
  normalizePeriod "P7" = "P7" /\ normalizePeriod "lunch" = "lunch".
Proof. repeat split; reflexivity. Qed.

Example split_ex :
  split "-" "Mon-P1" = ["Mon"; "P1"] /\ split "-" "Mon" = ["Mon"] /\
  split "-" "Mon-P1-P3" = ["Mon"; "P1"; "P3"] /\ split "-" EmptyString = [EmptyString] /\
  split "-" "Mon--" = ["Mon"; EmptyString; EmptyString].
Proof. repeat split; reflexivity. Qed.

(** ** Strings *)

Section StringFacts.

Lemma isEmpty_true (s : string) : isEmpty s = true <-> s = EmptyString.
Proof. destruct s; cbv; split; intros; congruence. Qed.

Lemma nonEmpty_true (s : string) : nonEmpty s = true <-> s <> EmptyString.
Proof. destruct s; cbv; split; intros; congruence. Qed.

Lemma nonEmpty_false (s : string) : nonEmpty s = false <-> s = EmptyString.
Proof. destruct s; cbv; split; intros; congruence. Qed.

Lemma append_empty_inv (a b : string) :
  a +:+ b = EmptyString -> a = EmptyString /\ b = EmptyString.
Proof. destruct a; simpl; [tauto | discriminate]. Qed.

Lemma includesChar_app (c : ascii) (a b : string) :
  includesChar c (a +:+ b) = includesChar c a || includesChar c b.
Proof.
  induction a as [|x a IH]; simpl; [reflexivity|].
  rewrite IH. apply orb_assoc.
Qed.

Lemma slotKey_nonEmpty (d p : string) : nonEmpty (slotKey d p) = true.
Proof.
  apply nonEmpty_true. intros H. unfold slotKey in H.
  apply append_empty_inv in H as [_ H]. discriminate H.
Qed.

Lemma slotKey_dash (d p : string) : includesChar "-" (slotKey d p) = true.
Proof.
  unfold slotKey. rewrite includesChar_app. simpl. apply orb_true_r.
Qed.

Lemma trimStart_head (s : string) :
  match trimStart s with
  | EmptyString => True
  | String c _ => isWhiteSpace c = false
  end.
Proof.
  induction s as [|c s IH]; simpl; [exact I|].
  destruct (isWhiteSpace c) eqn:E; [exact IH | exact E].
Qed.

Lemma trimEnd_idem (s : string) : trimEnd (trimEnd s) = trimEnd s.
Proof.
  induction s as [|c s IH]; simpl; [reflexivity|].
  destruct (isWhiteSpace c && isEmpty (trimEnd s)) eqn:E; simpl;
    [reflexivity|].
  rewrite IH, E. reflexivity.
Qed.

Lemma trimStart_trimEnd (s : string) :
  match s with
  | EmptyString => True
  | String c _ => isWhiteSpace c = false
  end ->
  trimStart (trimEnd s) = trimEnd s.
Proof.
  destruct s as [|c s]; simpl; [reflexivity|].
  intros E. rewrite E. simpl. rewrite E. reflexivity.
Qed.

Lemma trim_idem (s : string) : trim (trim s) = trim s.
Proof.
  unfold trim.
  rewrite (trimStart_trimEnd (trimStart s) (trimStart_head s)).
  apply trimEnd_idem.
Qed.

Lemma indexOf_nth (arr : list string) (x : string) (i : nat) :
  indexOf arr x = Some i -> nth i arr EmptyString = x /\ (i < length arr)%nat.
Proof.
  revert i. induction arr as [|y ys IH]; simpl; intros i H; [discriminate|].
  destruct (String.eqb y x) eqn:E.
  - injection H as <-. apply String.eqb_eq in E. split; [exact E | lia].
  - destruct (indexOf ys x) as [j|]; simpl in H; [|discriminate].
    injection H as <-. destruct (IH j eq_refl) as [H1 H2].
    split; [exact H1 | simpl; lia].
Qed.

Lemma includes_In (arr : list string) (x : string) :
  includes arr x = true <-> In x arr.
Proof.
  unfold includes. rewrite existsb_exists. split.
  - intros [y [Hy E]]. apply String.eqb_eq in E. subst. exact Hy.
  - intros H. exists x. split; [exact H | apply String.eqb_refl].
Qed.

End StringFacts.

(** ** The normalizer and the validity gate of [slotFromRow] *)

Lemma canonical_key (d p : string) :
  In d DAYS -> In p PERIODS -> In (slotKey d p) canonicalSlots.
Proof.
  intros Hd Hp. unfold canonicalSlots. apply in_flat_map.
  exists d. split; [exact Hd|]. apply in_map. exact Hp.
Qed.

Lemma slotFromRow_empty_iff (r : TimetableRow) :
  slotFromRow r = EmptyString <->
  normalizeDay (trim (day r)) = EmptyString
  \/ normalizePeriod (trim (replacePeriodPrefix (period r))) = EmptyString.
Proof.
  unfold slotFromRow.
  destruct (normalizeDay (trim (day r))) as [|c nd]; simpl.
  { split; auto. }
  destruct (normalizePeriod (trim (replacePeriodPrefix (period r))))
    as [|c' np]; simpl.
  { split; auto. }
  split; [discriminate | intros [H|H]; discriminate H].
Qed.

(** C2, as amended: [slotFromRow] returns the empty string exactly when the
    normalized day or the normalized period is the empty string; otherwise
    it returns the normalized day, a dash and the normalized period, which
    is a key of the grid when both are canonical.  A non-empty value that
    is outside the vocabulary is not rejected. *)
Theorem slotFromRow_gate (r : TimetableRow) :
  let nd := normalizeDay (trim (day r)) in
  let np := normalizePeriod (trim (replacePeriodPrefix (period r))) in
  (slotFromRow r = EmptyString <-> nd = EmptyString \/ np = EmptyString)
  /\ (nd <> EmptyString -> np <> EmptyString ->
      slotFromRow r = nd +:+ "-" +:+ np)
  /\ (In nd DAYS -> In np PERIODS ->
      slotFromRow r = slotKey nd np /\ In (slotFromRow r) canonicalSlots).
Proof.
  intros nd np. split; [apply slotFromRow_empty_iff|].
  assert (Hne : nd <> EmptyString -> np <> EmptyString ->
                slotFromRow r = nd +:+ "-" +:+ np).
  { intros Hd Hp. unfold slotFromRow. fold nd np.
    destruct nd; [congruence|]. destruct np; [congruence|]. reflexivity. }
  split; [exact Hne|].
  intros Hd Hp.
  assert (E : slotFromRow r = slotKey nd np).
  { apply Hne.
    - intros ->. simpl in Hd. intuition discriminate.
    - intros ->. simpl in Hp. intuition discriminate. }
  split; [exact E|]. rewrite E. apply canonical_key; assumption.
Qed.

Lemma slotFromRow_gate_witness :
  slotFromRow rowT = slotKey "Mon" "P1" /\ In (slotFromRow rowT) canonicalSlots.
Proof.
  apply (slotFromRow_gate rowT); simpl; auto.
Defined.

(** C2, as stated, fails: the normalized day of [rowSaturday] is outside
    the vocabulary and the slot is not the empty string. *)
Lemma slotFromRow_noncanonical_day :
  ~ In (normalizeDay (trim (day rowSaturday))) DAYS
  /\ slotFromRow rowSaturday = "Saturday-P1"
  /\ slotFromRow rowSaturday <> EmptyString.
Proof.
  split; [|split; [reflexivity | discriminate]].
  simpl. intros H. repeat (destruct H as [H|H]; [discriminate H|]). exact H.
Qed.

(** ** The relocation search *)

Section FirstMatch.

Variable test : string -> bool.

Lemma find_app (l1 l2 : list string) :
  List.find test (l1 ++ l2) =
  match List.find test l1 with
  | Some s => Some s
  | None => List.find test l2
  end.
Proof.
  induction l1 as [|x l1 IH]; simpl; [reflexivity|].
  destruct (test x); [reflexivity | exact IH].
Qed.

Lemma probed_app (l1 l2 : list string) :
  probed test (l1 ++ l2) =
  match List.find test l1 with
  | Some _ => probed test l1
  | None => l1 ++ probed test l2
  end.
Proof.
  induction l1 as [|x l1 IH]; simpl; [reflexivity|].
  destruct (test x); [reflexivity|].
  rewrite IH. destruct (List.find test l1); reflexivity.
Qed.

Lemma probed_none (l : list string) :
  List.find test l = None -> probed test l = l.
Proof.
  induction l as [|x l IH]; simpl; [reflexivity|].
  destruct (test x); [discriminate|]. intros H. rewrite (IH H). reflexivity.
Qed.

Lemma find_none_iff (l : list string) :
  List.find test l = None <-> (forall s, In s l -> test s = false).
Proof.
  split; [apply find_none|].
  induction l as [|x l IH]; simpl; intros H; [reflexivity|].
  rewrite (H x (or_introl eq_refl)). apply IH. intros s Hs. apply H. auto.
Qed.

(** What a first-match loop returns: the candidates before the result all
    failed the test, the result passes it, and the loop tested exactly
    these. *)
Lemma find_first (l : list string) (s : string) :
  List.find test l = Some s ->
  exists before after,
    l = before ++ s :: after
    /\ (forall x, In x before -> test x = false)
    /\ test s = true
    /\ probed test l = before ++ [s].
Proof.
  induction l as [|x l IH]; simpl; [discriminate|].
  destruct (test x) eqn:E.
  - intros [= <-]. exists [], l. simpl. repeat split; auto. tauto.
  - intros H. destruct (IH H) as (b & a & -> & Hb & Hs & Hp).
    exists (x :: b), a. simpl. rewrite Hp. repeat split; auto.
    intros y [<-|Hy]; auto.
Qed.

Lemma orThen_first_match (l1 l2 : list string) :
  orThen (List.find test l1, probed test l1)
         (List.find test l2, probed test l2)
  = (List.find test (l1 ++ l2), probed test (l1 ++ l2)).
Proof.
  unfold orThen. rewrite find_app, probed_app.
  destruct (List.find test l1) eqn:E; [reflexivity|].
  simpl. rewrite (probed_none l1 E). reflexivity.
Qed.

Lemma tryPeriods_find (dayName : string) (ps : list nat) :
  tryPeriods test dayName ps
  = List.find test (map (fun p => slotKey dayName (at_ PERIODS p)) ps).
Proof.
  induction ps as [|p ps IH]; simpl; [reflexivity|].
  destruct (test _); [reflexivity | exact IH].
Qed.

Lemma tryDays_find (ds : list nat) :
  tryDays test ds = List.find test (flat_map daySlots ds).
Proof.
  induction ds as [|d ds IH]; [reflexivity|].
  cbn [tryDays flat_map]. rewrite find_app, tryPeriods_find.
  fold (daySlots d).
  destruct (List.find test (daySlots d)); [reflexivity | exact IH].
Qed.

Lemma probePeriods_first_match (dayName : string) (ps : list nat) :
  probePeriods test dayName ps
  = (List.find test (map (fun p => slotKey dayName (at_ PERIODS p)) ps),
     probed test (map (fun p => slotKey dayName (at_ PERIODS p)) ps)).
Proof.
  induction ps as [|p ps IH]; simpl; [reflexivity|].
  destruct (test _); [reflexivity|]. rewrite IH. reflexivity.
Qed.

Lemma probeDays_first_match (ds : list nat) :
  probeDays test ds
  = (List.find test (flat_map daySlots ds),
     probed test (flat_map daySlots ds)).
Proof.
  induction ds as [|d ds IH]; [reflexivity|].
  cbn [probeDays flat_map]. rewrite probePeriods_first_match, IH.
  fold (daySlots d). apply orThen_first_match.
Qed.

End FirstMatch.

Section Search.

Variables (teacher room group : string).
Variable occupiedSlots : gmap string SlotData.

Let test (s : string) : bool :=
  isSlotAvailable s teacher room group occupiedSlots.

Lemma search_first_match (currentSlot currentDay : string) (d p : nat) :
  isEmpty currentSlot = false ->
  slotIndices currentSlot = Some (currentDay, d, p) ->
  findNextAvailableSlotProbes currentSlot teacher room group occupiedSlots
  = (List.find test (searchOrder currentDay d p),
     probed test (searchOrder currentDay d p)).
Proof.
  intros Hne Hidx. unfold findNextAvailableSlotProbes. rewrite Hne, Hidx.
  rewrite !probePeriods_first_match, !probeDays_first_match.
  rewrite !orThen_first_match. reflexivity.
Qed.

Lemma probes_result (currentSlot : string) :
  findNextAvailableSlot currentSlot teacher room group occupiedSlots
  = fst (findNextAvailableSlotProbes currentSlot teacher room group
           occupiedSlots).
Proof.
  unfold findNextAvailableSlot, findNextAvailableSlotProbes.
  destruct (isEmpty currentSlot); [reflexivity|].
  destruct (slotIndices currentSlot) as [[[cd d] p]|]; [|reflexivity].
  rewrite !probePeriods_first_match, !probeDays_first_match.
  rewrite !orThen_first_match. simpl.
  rewrite !tryPeriods_find, !tryDays_find, !find_app.
  repeat match goal with
         | |- context [match ?x with _ => _ end] => destruct x; try reflexivity
         end.
Qed.

Lemma search_find (currentSlot currentDay : string) (d p : nat) :
  isEmpty currentSlot = false ->
  slotIndices currentSlot = Some (currentDay, d, p) ->
  findNextAvailableSlot currentSlot teacher room group occupiedSlots
  = List.find test (searchOrder currentDay d p).
Proof.
  intros Hne Hidx. rewrite probes_result.
  rewrite (search_first_match _ _ _ _ Hne Hidx). reflexivity.
Qed.

End Search.

(** Facts about the 30 starting points, by enumeration. *)

Ltac each_cell d p :=
  destruct d as [|[|[|[|[|d]]]]]; [| | | | |lia];
  (destruct p as [|[|[|[|[|[|p]]]]]]; [| | | | | |lia]).

Lemma slotIndices_grid (d p : nat) :
  (d < 5)%nat -> (p < 6)%nat ->
  slotIndices (gridSlot d p) = Some (at_ DAYS d, d, p)
  /\ isEmpty (gridSlot d p) = false.
Proof. intros Hd Hp. each_cell d p; split; reflexivity. Qed.

Lemma searchOrder_length (d p : nat) :
  (d < 5)%nat -> (p < 6)%nat ->
  length (searchOrder (at_ DAYS d) d p) = 29%nat.
Proof. intros Hd Hp. each_cell d p; reflexivity. Qed.

Lemma searchOrder_covers (d p : nat) :
  (d < 5)%nat -> (p < 6)%nat ->
  forallb (fun s => negb (String.eqb s (gridSlot d p))
                    && existsb (String.eqb s) (searchOrder (at_ DAYS d) d p))
          (List.filter (fun s => negb (String.eqb s (gridSlot d p)))
                       canonicalSlots) = true
  /\ forallb (fun s => negb (String.eqb s (gridSlot d p))
                       && isCanonicalSlot s)
             (searchOrder (at_ DAYS d) d p) = true.
Proof. intros Hd Hp. each_cell d p; split; vm_compute; reflexivity. Qed.

Lemma searchOrder_mem (d p : nat) (s : string) :
  (d < 5)%nat -> (p < 6)%nat ->
  In s (searchOrder (at_ DAYS d) d p)
  <-> In s canonicalSlots /\ s <> gridSlot d p.
Proof.
  intros Hd Hp. destruct (searchOrder_covers d p Hd Hp) as [H1 H2].
  rewrite forallb_forall in H1, H2. split.
  - intros Hs. apply H2 in Hs. apply andb_true_iff in Hs as [Hn Hc].
    split; [apply includes_In; exact Hc|].
    apply negb_true_iff, String.eqb_neq in Hn. exact Hn.
  - intros [Hc Hn].
    assert (Hf : In s (List.filter (fun s => negb (String.eqb s (gridSlot d p)))
                         canonicalSlots)).
    { apply filter_In. split; [exact Hc|].
      apply negb_true_iff, String.eqb_neq. exact Hn. }
    apply H1 in Hf. apply andb_true_iff in Hf as [_ Hf].
    apply existsb_exists in Hf as [y [Hy E]].
    apply String.eqb_eq in E. subst. exact Hy.
Qed.

Lemma searchOrder_NoDup (d p : nat) :
  (d < 5)%nat -> (p < 6)%nat -> List.NoDup (searchOrder (at_ DAYS d) d p).
Proof.
  intros Hd Hp.
  each_cell d p;
    apply (List.NoDup_count_occ' string_dec); intros x Hx;
    repeat (destruct Hx as [<-|Hx]; [vm_compute; reflexivity|]);
    destruct Hx.
Qed.

Lemma canonical_cell (s : string) :
  In s canonicalSlots ->
  exists d p, (d < 5)%nat /\ (p < 6)%nat /\ s = gridSlot d p.
Proof.
  unfold canonicalSlots. rewrite in_flat_map.
  intros (dn & Hd & Hs). apply in_map_iff in Hs as (pn & <- & Hp).
  apply (In_nth _ _ EmptyString) in Hd as (d & Hd & <-).
  apply (In_nth _ _ EmptyString) in Hp as (p & Hp & <-).
  exists d, p. auto.
Qed.

Lemma candidateOrder_grid (d p : nat) :
  (d < 5)%nat -> (p < 6)%nat ->
  candidateOrder (gridSlot d p) = searchOrder (at_ DAYS d) d p.
Proof.
  intros Hd Hp. unfold candidateOrder.
  destruct (slotIndices_grid d p Hd Hp) as [-> ->]. reflexivity.
Qed.

Lemma search_candidateOrder (cur teacher room group : string)
    (occ : gmap string SlotData) :
  findNextAvailableSlotProbes cur teacher room group occ
  = (List.find (fun s => isSlotAvailable s teacher room group occ)
       (candidateOrder cur),
     probed (fun s => isSlotAvailable s teacher room group occ)
       (candidateOrder cur)).
Proof.
  unfold candidateOrder.
  destruct (isEmpty cur) eqn:E.
  { unfold findNextAvailableSlotProbes. rewrite E. reflexivity. }
  destruct (slotIndices cur) as [[[cd d] p]|] eqn:Hi.
  - apply search_first_match; assumption.
  - unfold findNextAvailableSlotProbes. rewrite E, Hi. reflexivity.
Qed.

(** C5: from a canonical start slot the search tests the other 29 slots of
    the grid, each once; it returns the first one that is available, having
    tested exactly the candidates up to it, and returns nothing only when
    all 29 were tested and failed.  From Mon-P1 the first candidate is
    Mon-P2. *)
Theorem search_exhaustive (start teacher room group : string)
    (occ : gmap string SlotData) :
  In start canonicalSlots ->
  let order := candidateOrder start in
  let test := fun s => isSlotAvailable s teacher room group occ in
  let result := findNextAvailableSlot start teacher room group occ in
  let probes :=
    snd (findNextAvailableSlotProbes start teacher room group occ) in
  List.NoDup order /\ length order = 29%nat
  /\ (forall s, In s order <-> In s canonicalSlots /\ s <> start)
  /\ result = List.find test order
  /\ probes = probed test order
  /\ (forall s, result = Some s ->
        exists before after,
          order = before ++ s :: after
          /\ (forall x, In x before -> test x = false)
          /\ test s = true
          /\ probes = before ++ [s])
  /\ (result = None <-> forall s, In s order -> test s = false)
  /\ (result = None -> probes = order)
  /\ hd_error (candidateOrder "Mon-P1") = Some "Mon-P2".
Proof.
  intros Hc order test result probes.
  destruct (canonical_cell start Hc) as (d & p & Hd & Hp & ->).
  assert (Hr : result = List.find test order).
  { unfold result. rewrite probes_result, search_candidateOrder.
    reflexivity. }
  assert (Hpr : probes = probed test order).
  { unfold probes. rewrite search_candidateOrder. reflexivity. }
  unfold order in *. rewrite candidateOrder_grid in * by assumption.
  split; [apply searchOrder_NoDup; assumption|].
  split; [apply searchOrder_length; assumption|].
  split; [intros s; apply searchOrder_mem; assumption|].
  split; [exact Hr|]. split; [exact Hpr|].
  split.
  { intros s Hs. rewrite Hr in Hs.
    destruct (find_first test _ s Hs) as (b & a & E1 & E2 & E3 & E4).
    exists b, a. rewrite Hpr. auto. }
  split; [rewrite Hr; apply find_none_iff|].
  split; [|reflexivity].
  intros Hn. rewrite Hpr. apply probed_none. rewrite <- Hr. exact Hn.
Qed.

Lemma search_exhaustive_witness :
  length (candidateOrder "Wed-P3") = 29%nat
  /\ findNextAvailableSlot "Wed-P3" "T" EmptyString EmptyString ∅
     = Some "Wed-P4".
Proof.
  assert (Hc : In "Wed-P3" canonicalSlots).
  { apply includes_In. vm_compute. reflexivity. }
  destruct (search_exhaustive "Wed-P3" "T" EmptyString EmptyString ∅ Hc)
    as (_ & Hlen & _ & Hres & _).
  split; [exact Hlen|]. rewrite Hres. vm_compute. reflexivity.
Defined.

(** The fourth loop, spelled out: the day just before comes first. *)
Lemma earlierDays_step (d : nat) :
  earlierDays (S d) = daySlots d ++ earlierDays d.
Proof.
  unfold earlierDays, downBelow. rewrite seq_S, rev_app_distr. reflexivity.
Qed.

Lemma daySlots_increasing (d : nat) :
  daySlots d = map (gridSlot d) [0; 1; 2; 3; 4; 5]%nat.
Proof. reflexivity. Qed.

(** C6, as amended: when the first three loops find nothing, the days
    before the original day are tried nearest first (the day just before,
    then the one before it, down to Mon), each day's periods increasing. *)
Theorem earlier_days_nearest_first (d p : nat) (teacher room group : string)
    (occ : gmap string SlotData) :
  (d < 5)%nat -> (p < 6)%nat ->
  let test := fun s => isSlotAvailable s teacher room group occ in
  (forall s, In s (laterPeriods (at_ DAYS d) p ++ laterDays d
                   ++ earlierPeriods (at_ DAYS d) p) -> test s = false) ->
  findNextAvailableSlot (gridSlot d p) teacher room group occ
  = List.find test (earlierDays d)
  /\ earlierDays 0 = []
  /\ (forall d', earlierDays (S d') = daySlots d' ++ earlierDays d')
  /\ (forall d', daySlots d' = map (gridSlot d') [0; 1; 2; 3; 4; 5]%nat).
Proof.
  intros Hd Hp test Hfail.
  split; [|split; [reflexivity|split; [apply earlierDays_step|reflexivity]]].
  destruct (slotIndices_grid d p Hd Hp) as [Hi He].
  rewrite (search_find _ _ _ _ _ _ _ _ He Hi). unfold searchOrder.
  rewrite !app_assoc, find_app. rewrite <- !app_assoc.
  apply find_none_iff in Hfail. fold test. rewrite Hfail. reflexivity.
Qed.

Lemma earlier_days_nearest_first_witness :
  findNextAvailableSlot "Wed-P1" "T" EmptyString EmptyString busyButTwo
  = Some "Tue-P1".
Proof.
  assert (H : forall s,
             In s (laterPeriods (at_ DAYS 2) 0 ++ laterDays 2
                   ++ earlierPeriods (at_ DAYS 2) 0) ->
             isSlotAvailable s "T" EmptyString EmptyString busyButTwo = false).
  { intros s Hs.
    assert (F : forallb
                  (fun s => negb (isSlotAvailable s "T" EmptyString EmptyString
                                    busyButTwo))
                  (laterPeriods (at_ DAYS 2) 0 ++ laterDays 2
                   ++ earlierPeriods (at_ DAYS 2) 0) = true)
      by (vm_compute; reflexivity).
    rewrite forallb_forall in F. apply F in Hs.
    apply negb_true_iff in Hs. exact Hs. }
  destruct (earlier_days_nearest_first 2 0 "T" EmptyString EmptyString
              busyButTwo ltac:(lia) ltac:(lia) H) as [E _].
  change (gridSlot 2 0) with "Wed-P1" in E. rewrite E.
  vm_compute. reflexivity.
Defined.

(** C6, as stated, fails: with Mon-P1 and Tue-P1 the only slots free for
    the teacher, the search from Wed-P1 finds nothing in its first three
    loops and then returns Tue-P1; trying the earlier days in day order
    would return Mon-P1. *)
Lemma earlier_days_not_in_day_order :
  let test := fun s => isSlotAvailable s "T" EmptyString EmptyString
                         busyButTwo in
  forallb (fun s => negb (test s))
    (laterPeriods "Wed" 0 ++ laterDays 2 ++ earlierPeriods "Wed" 0) = true
  /\ test "Mon-P1" = true
  /\ findNextAvailableSlot "Wed-P1" "T" EmptyString EmptyString busyButTwo
     = Some "Tue-P1"
  /\ List.find test (specSearchOrder "Wed" 2 0) = Some "Mon-P1"
  /\ candidateOrder "Wed-P1" <> specSearchOrder "Wed" 2 0.
Proof.
  repeat split; try (vm_compute; reflexivity).
  intros H. vm_compute in H. discriminate H.
Qed.

(** ** The early returns of the search *)

Lemma indexOf_none (arr : list string) (x : string) :
  includes arr x = false -> indexOf arr x = None.
Proof.
  unfold includes. induction arr as [|y ys IH]; simpl; [reflexivity|].
  rewrite String.eqb_sym. destruct (String.eqb y x); simpl; [discriminate|].
  intros H. rewrite (IH H). reflexivity.
Qed.

Lemma unparseable_early_return (cur : string) :
  unparseable cur = true -> candidateOrder cur = [].
Proof.
  unfold unparseable, candidateOrder, slotIndices. intros H.
  destruct (isEmpty cur); [reflexivity|].
  apply orb_true_iff in H as [H|H];
    [apply orb_true_iff in H as [H|H]; [discriminate H|]|].
  - apply negb_true_iff, indexOf_none in H. rewrite H. reflexivity.
  - destruct (indexOf DAYS (dayComponent cur)); [|reflexivity].
    destruct (periodComponent cur) as [cp|]; [|reflexivity].
    apply negb_true_iff, indexOf_none in H. rewrite H. reflexivity.
Qed.

Lemma split_head (c : ascii) (s : string) :
  nth 0 (split c s) EmptyString = beforeFirst c s.
Proof.
  induction s as [|x s IH]; simpl; [reflexivity|].
  destruct (Ascii.eqb x c); [reflexivity|].
  destruct (split c s) as [|h t]; simpl in *; rewrite <- IH; reflexivity.
Qed.

(** The first component is the text before the first dash. *)
Lemma dayComponent_beforeFirst (cur : string) :
  dayComponent cur = beforeFirst "-" cur.
Proof. apply split_head. Qed.

Lemma split_first (c : ascii) (s : string) :
  nth_error (split c s) 0 = Some (beforeFirst c s).
Proof.
  induction s as [|x s IH]; simpl; [reflexivity|].
  destruct (Ascii.eqb x c); [reflexivity|].
  destruct (split c s) as [|h t]; simpl in *; [discriminate IH|].
  injection IH as ->. reflexivity.
Qed.

Lemma split_second (c : ascii) (s : string) :
  nth_error (split c s) 1
  = if includesChar c s then Some (beforeFirst c (afterFirst c s)) else None.
Proof.
  induction s as [|x s IH]; simpl; [reflexivity|].
  destruct (Ascii.eqb x c); simpl; [apply split_first|].
  destruct (split c s) as [|h t] eqn:E; simpl in *; exact IH.
Qed.

(** The second component is missing when the slot has no dash, and is
    otherwise the text between the first dash and the second one, or the
    end of the slot when there is no second dash. *)
Lemma periodComponent_text (cur : string) :
  periodComponent cur
  = if includesChar "-" cur
    then Some (beforeFirst "-" (afterFirst "-" cur)) else None.
Proof. apply split_second. Qed.

Lemma slotIndices_some (cur cd : string) (d p : nat) :
  slotIndices cur = Some (cd, d, p) ->
  cd = at_ DAYS d /\ (d < 5)%nat /\ (p < 6)%nat.
Proof.
  unfold slotIndices.
  destruct (indexOf DAYS (dayComponent cur)) as [d'|] eqn:Ed; [|discriminate].
  destruct (periodComponent cur) as [cp|]; [|discriminate].
  destruct (indexOf PERIODS cp) as [p'|] eqn:Ep; [|discriminate].
  intros [= <- <- <-].
  apply indexOf_nth in Ed as [Ed1 Ed2]. apply indexOf_nth in Ep as [_ Ep2].
  unfold at_. auto.
Qed.

Lemma candidateOrder_canonical (cur s : string) :
  In s (candidateOrder cur) -> In s canonicalSlots.
Proof.
  unfold candidateOrder. destruct (isEmpty cur); [contradiction|].
  destruct (slotIndices cur) as [[[cd d] p]|] eqn:E; [|contradiction].
  apply slotIndices_some in E as (-> & Hd & Hp).
  intros H. apply (searchOrder_mem d p s Hd Hp) in H. tauto.
Qed.

Lemma canonical_nonEmpty (s : string) :
  In s canonicalSlots -> nonEmpty s = true.
Proof.
  intros H. apply canonical_cell in H as (d & p & _ & _ & ->).
  apply slotKey_nonEmpty.
Qed.

(** What the search returns is a slot of the grid, free for the row. *)
Lemma relocation_sound (cur teacher room group alt : string)
    (occ : gmap string SlotData) :
  findNextAvailableSlot cur teacher room group occ = Some alt ->
  In alt canonicalSlots
  /\ isSlotAvailable alt teacher room group occ = true.
Proof.
  rewrite probes_result, search_candidateOrder. simpl. intros H.
  apply find_some in H as [H1 H2]. split; [|exact H2].
  eapply candidateOrder_canonical; eassumption.
Qed.

(** ** The resolution pass *)

Lemma resolveRow_commit (st : PassState) (r : TimetableRow) :
  resolveRow st r
  = commitRow st r (fst (chooseSlot r (st_occupied st)))
      (snd (chooseSlot r (st_occupied st))).
Proof.
  unfold resolveRow. destruct (chooseSlot r (st_occupied st)). reflexivity.
Qed.

Lemma resolveRows_snoc (st : PassState) (rows : list TimetableRow)
    (r : TimetableRow) :
  resolveRows st (rows ++ [r]) = resolveRow (resolveRows st rows) r.
Proof. unfold resolveRows. rewrite fold_left_app. reflexivity. Qed.

(** The three branches of the loop body. *)
Lemma chooseSlot_cases (r : TimetableRow) (occ : gmap string SlotData) :
  (availableFor r (slotFromRow r) occ = true
   /\ chooseSlot r occ = (slotFromRow r, []))
  \/ (availableFor r (slotFromRow r) occ = false
      /\ exists alt, relocationOf r occ = Some alt /\ nonEmpty alt = true
         /\ chooseSlot r occ = (alt, [Moved (subject r) (slotFromRow r) alt]))
  \/ (availableFor r (slotFromRow r) occ = false
      /\ (relocationOf r occ = None \/ relocationOf r occ = Some EmptyString)
      /\ chooseSlot r occ
         = (slotFromRow r, [NoAlternative (subject r) (slotFromRow r)])).
Proof.
  unfold chooseSlot, availableFor, relocationOf.
  destruct (isSlotAvailable (slotFromRow r) _ _ _ occ); simpl; [auto|].
  right.
  destruct (findNextAvailableSlot (slotFromRow r) _ _ _ occ) as [alt|];
    [|right; auto].
  destruct alt as [|c alt]; simpl; [right; auto|].
  left. split; [reflexivity|]. eexists. eauto.
Qed.

Lemma chooseSlot_slot (r : TimetableRow) (occ : gmap string SlotData) :
  fst (chooseSlot r occ) = slotFromRow r
  \/ (In (fst (chooseSlot r occ)) canonicalSlots
      /\ relocationOf r occ = Some (fst (chooseSlot r occ))
      /\ availableFor r (slotFromRow r) occ = false).
Proof.
  destruct (chooseSlot_cases r occ)
    as [[_ ->]|[(Ha & alt & Hr & _ & ->)|(_ & _ & ->)]]; simpl; auto.
  right. split; [|auto]. apply relocation_sound in Hr. tauto.
Qed.

Section PassInvariant.

Variable Q : TimetableRow -> Prop.
Variable P : Assignment -> Prop.
Hypothesis P_chosen :
  forall r occ, Q r -> P (mkAssignment r (fst (chooseSlot r occ))).

Lemma resolveRows_Forall (rows : list TimetableRow) (st : PassState) :
  List.Forall Q rows ->
  List.Forall P (st_assignments st) ->
  List.Forall P (st_assignments (resolveRows st rows)).
Proof.
  revert st. induction rows as [|r rows IH]; intros st HQ HP; [exact HP|].
  inversion HQ as [|? ? Hr Hrows]; subst. simpl. apply IH; [exact Hrows|].
  rewrite resolveRow_commit. simpl. apply List.Forall_app. split; [exact HP|].
  constructor; [|constructor]. apply P_chosen. exact Hr.
Qed.

End PassInvariant.

Lemma resolveRows_rows (rows : list TimetableRow) (st : PassState) :
  map row (st_assignments (resolveRows st rows))
  = map row (st_assignments st) ++ rows.
Proof.
  revert st. induction rows as [|r rows IH]; intros st; simpl.
  - rewrite app_nil_r. reflexivity.
  - rewrite IH, resolveRow_commit. simpl.
    rewrite map_app, <- app_assoc. reflexivity.
Qed.

Lemma assignments_rows (rows : list TimetableRow) :
  map row (assignments (mergeAndResolve rows)) = List.filter isValidRow rows.
Proof. simpl. unfold mergeState. apply resolveRows_rows. Qed.

Lemma merge_Forall (P : Assignment -> Prop) (rows : list TimetableRow) :
  (forall r occ, isValidRow r = true ->
                 P (mkAssignment r (fst (chooseSlot r occ)))) ->
  List.Forall P (assignments (mergeAndResolve rows)).
Proof.
  intros H. simpl. unfold mergeState.
  apply (resolveRows_Forall (fun r => isValidRow r = true) P H).
  - apply List.Forall_forall. intros r Hr. apply filter_In in Hr. tauto.
  - constructor.
Qed.

Lemma isValidRow_slot (r : TimetableRow) :
  isValidRow r = true -> nonEmpty (slotFromRow r) = true.
Proof.
  unfold isValidRow. intros H.
  apply andb_true_iff in H as [H _]. apply andb_true_iff in H as [H _].
  exact H.
Qed.

Lemma chosen_slot_ok (r : TimetableRow) (occ : gmap string SlotData) :
  isValidRow r = true ->
  (fst (chooseSlot r occ) = slotFromRow r
   \/ In (fst (chooseSlot r occ)) canonicalSlots)
  /\ nonEmpty (fst (chooseSlot r occ)) = true.
Proof.
  intros Hv. destruct (chooseSlot_slot r occ) as [E|(Hc & _)].
  - split; [left; exact E|]. rewrite E. apply isValidRow_slot, Hv.
  - split; [right; exact Hc|]. apply canonical_nonEmpty, Hc.
Qed.

Lemma assigned_slot_ok (rows : list TimetableRow) (a : Assignment) :
  In a (assignments (mergeAndResolve rows)) ->
  (assignedSlot a = slotFromRow (row a) \/ In (assignedSlot a) canonicalSlots)
  /\ nonEmpty (assignedSlot a) = true.
Proof.
  intros Ha.
  assert (H := merge_Forall
    (fun a => (assignedSlot a = slotFromRow (row a)
               \/ In (assignedSlot a) canonicalSlots)
              /\ nonEmpty (assignedSlot a) = true) rows chosen_slot_ok).
  rewrite List.Forall_forall in H. apply H, Ha.
Qed.

Lemma resolveRows_app (st : PassState) (l1 l2 : list TimetableRow) :
  resolveRows st (l1 ++ l2) = resolveRows (resolveRows st l1) l2.
Proof. unfold resolveRows. apply fold_left_app. Qed.

Lemma resolveRows_extends (rows : list TimetableRow) (st : PassState) :
  exists tail,
    st_assignments (resolveRows st rows) = st_assignments st ++ tail
    /\ map row tail = rows.
Proof.
  revert st. induction rows as [|r rows IH]; intros st.
  - exists []. rewrite app_nil_r. auto.
  - destruct (IH (resolveRow st r)) as (tail & E & Hm).
    exists (mkAssignment r (fst (chooseSlot r (st_occupied st))) :: tail).
    simpl. rewrite E, resolveRow_commit. simpl.
    rewrite <- app_assoc, Hm. auto.
Qed.

Lemma firstn_exact (l1 l2 : list TimetableRow) :
  firstn (length l1) (l1 ++ l2) = l1.
Proof. induction l1 as [|x l1 IH]; simpl; [reflexivity|]. rewrite IH. reflexivity. Qed.

(** The Assignment of position [j] is made from the valid row of position
    [j] and the index left by the valid rows before it. *)
Lemma assignment_at (rows : list TimetableRow) (j : nat) (a : Assignment) :
  nth_error (assignments (mergeAndResolve rows)) j = Some a ->
  nth_error (List.filter isValidRow rows) j = Some (row a)
  /\ assignedSlot a = fst (chooseSlot (row a) (indexBefore rows j)).
Proof.
  intros Ha.
  assert (Hr : nth_error (List.filter isValidRow rows) j = Some (row a)).
  { rewrite <- assignments_rows, nth_error_map, Ha. reflexivity. }
  split; [exact Hr|].
  destruct (nth_error_split _ _ Hr) as (l1 & l2 & E & Hlen).
  unfold indexBefore. rewrite E, <- Hlen, firstn_exact.
  change (assignments (mergeAndResolve rows))
    with (st_assignments (resolveRows initialState
                            (List.filter isValidRow rows))) in Ha.
  rewrite E, resolveRows_app in Ha.
  change (resolveRows (resolveRows initialState l1) (row a :: l2))
    with (resolveRows (resolveRow (resolveRows initialState l1) (row a)) l2)
    in Ha.
  destruct (resolveRows_extends l2 (resolveRow (resolveRows initialState l1)
                                       (row a))) as (tail & Et & _).
  rewrite Et, resolveRow_commit in Ha. cbn [st_assignments commitRow] in Ha.
  assert (Hl : length (st_assignments (resolveRows initialState l1)) = j).
  { rewrite <- Hlen, <- (length_map row), resolveRows_rows. reflexivity. }
  rewrite <- app_assoc, nth_error_app2 in Ha by lia.
  rewrite Hl, Nat.sub_diag in Ha. simpl in Ha. injection Ha as <-.
  reflexivity.
Qed.

(** C3, as amended: the slot of every Assignment is either the slot computed
    from the row's original day and period, or a key of the 30-slot grid to
    which the row was relocated.  With the occupancy index as the loop
    finds it at that row: the original slot is kept when it is available,
    and when it is not and the search returns nothing; otherwise the slot
    is what the search returns, a grid key available for the row.  So a row
    is moved only off an unavailable slot.  The original slot need not be a
    grid key; the assigned slot is one whenever the original is, and it is
    never empty. *)
Theorem assignedSlot_original_or_grid (rows : list TimetableRow) (j : nat)
    (a : Assignment) :
  nth_error (assignments (mergeAndResolve rows)) j = Some a ->
  let occ := indexBefore rows j in
  let original := slotFromRow (row a) in
  (assignedSlot a = original \/ In (assignedSlot a) canonicalSlots)
  /\ (In original canonicalSlots -> In (assignedSlot a) canonicalSlots)
  /\ assignedSlot a <> EmptyString
  /\ (forall r occ',
        relocationOf r occ' = None -> fst (chooseSlot r occ') = slotFromRow r)
  /\ nth_error (List.filter isValidRow rows) j = Some (row a)
  /\ (availableFor (row a) original occ = true -> assignedSlot a = original)
  /\ (availableFor (row a) original occ = false ->
      relocationOf (row a) occ = None -> assignedSlot a = original)
  /\ (forall alt,
        availableFor (row a) original occ = false ->
        relocationOf (row a) occ = Some alt ->
        assignedSlot a = alt /\ In alt canonicalSlots
        /\ availableFor (row a) alt occ = true)
  /\ (assignedSlot a <> original ->
      availableFor (row a) original occ = false
      /\ relocationOf (row a) occ = Some (assignedSlot a)).
Proof.
  intros Ha occ original.
  destruct (assigned_slot_ok rows a (nth_error_In _ _ Ha)) as [H1 H2].
  destruct (assignment_at rows j a Ha) as [Hr Hs]. fold occ in Hs.
  split; [exact H1|]. split.
  { intros Hc. destruct H1 as [->|H1]; assumption. }
  split; [apply nonEmpty_true; exact H2|]. split.
  { intros r occ' Hn.
    destruct (chooseSlot_slot r occ') as [E|(_ & E & _)]; [exact E|].
    congruence. }
  split; [exact Hr|]. rewrite Hs. unfold original.
  destruct (chooseSlot_cases (row a) occ)
    as [[Hav ->]|[(Hav & alt & Hrel & Hne & ->)|(Hav & Hrel & ->)]]; simpl.
  - repeat split; intros; congruence.
  - assert (Hsound := Hrel). unfold relocationOf in Hsound.
    apply relocation_sound in Hsound as [Hc Hfree].
    split; [congruence|]. split.
    { intros _ Hn. congruence. }
    split; [|auto].
    intros alt' _ E. assert (alt' = alt) by congruence. subst alt'.
    auto.
  - split; [auto|]. split; [auto|]. split; [|congruence].
    intros alt _ E. destruct Hrel as [Hrel|Hrel]; [congruence|].
    assert (alt = EmptyString) by congruence. subst alt.
    unfold relocationOf in E. apply relocation_sound in E as [Hc _].
    apply canonical_nonEmpty in Hc. discriminate Hc.
Qed.

Lemma assignedSlot_original_or_grid_witness :
  assignedSlot (mkAssignment rowT "Mon-P2") = "Mon-P2"
  /\ In "Mon-P2" canonicalSlots
  /\ availableFor rowT "Mon-P2" (indexBefore [rowT; rowT] 1) = true.
Proof.
  assert (Ha : nth_error (assignments (mergeAndResolve [rowT; rowT])) 1
               = Some (mkAssignment rowT "Mon-P2")).
  { vm_compute. reflexivity. }
  destruct (assignedSlot_original_or_grid [rowT; rowT] 1 _ Ha)
    as (_ & _ & _ & _ & _ & _ & _ & H & _).
  apply (H "Mon-P2"); vm_compute; reflexivity.
Defined.

(** C3, as stated, fails: the only row is assigned a slot outside the grid
    although no relocation was attempted (the original slot was free and the
    console shows no exhausted search). *)
Lemma noncanonical_slot_assigned :
  assignments (mergeAndResolve [rowSaturday])
  = [mkAssignment rowSaturday "Saturday-P1"]
  /\ isCanonicalSlot "Saturday-P1" = false
  /\ availableFor rowSaturday (slotFromRow rowSaturday) ∅ = true
  /\ st_console (mergeState [rowSaturday]) = [].
Proof. repeat split; vm_compute; reflexivity. Qed.

(** ** The occupancy index *)

Lemma addToSlot_insert (s teacher room group : string)
    (occ : gmap string SlotData) :
  addToSlot s teacher room group occ
  = <[s := addTrimmedAll teacher room group
             (default emptySlotData (occ !! s))]> occ.
Proof.
  unfold addToSlot. destruct (occ !! s) as [sd|] eqn:E.
  - rewrite E. reflexivity.
  - rewrite lookup_insert_eq, insert_insert_eq. reflexivity.
Qed.

Lemma addTrimmed_idem (x : string) (set : gset string) :
  addTrimmed x (addTrimmed x set) = addTrimmed x set.
Proof.
  unfold addTrimmed. destruct (nonEmpty x && nonEmpty (trim x));
    [|reflexivity].
  apply set_eq. intros y. rewrite !elem_of_union. tauto.
Qed.

Lemma addTrimmed_mono (x res : string) (set : gset string) :
  res ∈ set -> res ∈ addTrimmed x set.
Proof.
  unfold addTrimmed. intros H.
  destruct (nonEmpty x && nonEmpty (trim x)); [|exact H].
  apply elem_of_union. right. exact H.
Qed.

Lemma addTrimmed_adds (x : string) (set : gset string) :
  nonEmpty (trim x) = true -> trim x ∈ addTrimmed (trim x) set.
Proof.
  intros H. unfold addTrimmed. rewrite trim_idem, H. simpl.
  apply elem_of_union. left. apply elem_of_singleton. reflexivity.
Qed.

Lemma addToSlot_idem (s teacher room group : string)
    (occ : gmap string SlotData) :
  addToSlot s teacher room group (addToSlot s teacher room group occ)
  = addToSlot s teacher room group occ.
Proof.
  rewrite !addToSlot_insert, lookup_insert_eq, insert_insert_eq. simpl.
  unfold addTrimmedAll. simpl. rewrite !addTrimmed_idem. reflexivity.
Qed.

Lemma addToSlot_keeps (s teacher room group : string)
    (occ : gmap string SlotData) (kind : ConflictType) (s' res : string) :
  committed occ kind s' res = true ->
  committed (addToSlot s teacher room group occ) kind s' res = true.
Proof.
  unfold committed. rewrite addToSlot_insert, lookup_insert.
  destruct (occ !! s') as [sd|] eqn:E; [|discriminate].
  intros H. apply bool_decide_eq_true in H.
  case_decide as Hs; [|apply bool_decide_eq_true; exact H].
  subst s'. rewrite E. simpl. apply bool_decide_eq_true.
  destruct kind; simpl; apply addTrimmed_mono; exact H.
Qed.

Lemma resolveRow_keeps (st : PassState) (r : TimetableRow)
    (kind : ConflictType) (s res : string) :
  committed (st_occupied st) kind s res = true ->
  committed (st_occupied (resolveRow st r)) kind s res = true.
Proof. rewrite resolveRow_commit. simpl. apply addToSlot_keeps. Qed.

Lemma resolveRows_keeps (rows : list TimetableRow) (st : PassState)
    (kind : ConflictType) (s res : string) :
  committed (st_occupied st) kind s res = true ->
  committed (st_occupied (resolveRows st rows)) kind s res = true.
Proof.
  revert st. induction rows as [|r rows IH]; intros st H; [exact H|].
  simpl. apply IH, resolveRow_keeps, H.
Qed.

(** The commit of one row, whichever branch chose the slot. *)
Lemma resolveRow_commits (st : PassState) (r : TimetableRow)
    (kind : ConflictType) :
  let a := mkAssignment r (fst (chooseSlot r (st_occupied st))) in
  nonEmpty (resourceKey kind a) = true ->
  committed (st_occupied (resolveRow st r)) kind (assignedSlot a)
    (resourceKey kind a) = true.
Proof.
  intros a H. rewrite resolveRow_commit. simpl.
  unfold committed. rewrite addToSlot_insert, lookup_insert_eq.
  apply bool_decide_eq_true.
  destruct kind; simpl in *; apply addTrimmed_adds; exact H.
Qed.

Lemma resolveRows_commits (rows : list TimetableRow) (st : PassState)
    (kind : ConflictType) (a : Assignment) :
  (In a (st_assignments st) -> nonEmpty (resourceKey kind a) = true ->
   committed (st_occupied st) kind (assignedSlot a) (resourceKey kind a)
   = true) ->
  In a (st_assignments (resolveRows st rows)) ->
  nonEmpty (resourceKey kind a) = true ->
  committed (st_occupied (resolveRows st rows)) kind (assignedSlot a)
    (resourceKey kind a) = true.
Proof.
  revert st. induction rows as [|r rows IH]; intros st Hst; [exact Hst|].
  simpl. apply IH. rewrite resolveRow_commit at 1. simpl.
  intros Hin Hne. apply in_app_or in Hin as [Hin|[<-|[]]].
  - rewrite resolveRow_commit. simpl. apply addToSlot_keeps. auto.
  - apply (resolveRow_commits st r kind). exact Hne.
Qed.

(** C8: every resource identity of every Assignment is recorded in the
    occupancy index at the assigned slot, whichever branch chose that slot
    (also the slot kept after a failed relocation); committing twice is
    committing once; and what is recorded stays recorded through the rest
    of the pass. *)
Theorem commitments_kept (rows : list TimetableRow) (a : Assignment)
    (kind : ConflictType) :
  In a (assignments (mergeAndResolve rows)) ->
  nonEmpty (resourceKey kind a) = true ->
  committed (st_occupied (mergeState rows)) kind (assignedSlot a)
    (resourceKey kind a) = true
  /\ (forall st r k,
        nonEmpty (rowResource k r) = true ->
        snd (chooseSlot r (st_occupied st))
        = [NoAlternative (subject r) (slotFromRow r)] ->
        committed (st_occupied (resolveRow st r)) k (slotFromRow r)
          (rowResource k r) = true)
  /\ (forall s t r g occ,
        addToSlot s t r g (addToSlot s t r g occ) = addToSlot s t r g occ)
  /\ (forall st more k s res,
        committed (st_occupied st) k s res = true ->
        committed (st_occupied (resolveRows st more)) k s res = true).
Proof.
  intros Ha Hne. split.
  { apply resolveRows_commits; [intros []|exact Ha|exact Hne]. }
  split.
  { intros st r k Hk Hev.
    assert (E : fst (chooseSlot r (st_occupied st)) = slotFromRow r).
    { destruct (chooseSlot_cases r (st_occupied st))
        as [[_ E]|[(_ & alt & _ & _ & E)|(_ & _ & E)]];
        rewrite E in *; simpl in *; congruence. }
    pose proof (resolveRow_commits st r k) as H. simpl in H.
    rewrite E in H. apply H. exact Hk. }
  split; [intros; apply addToSlot_idem|].
  intros st more k s res. apply resolveRows_keeps.
Qed.

Lemma commitments_kept_witness :
  committed (st_occupied (mergeState (repeat rowT 31))) TeacherConflict
    "Mon-P1" "T" = true.
Proof.
  assert (Ha : In (mkAssignment rowT "Mon-P1")
                  (assignments (mergeAndResolve (repeat rowT 31)))).
  { vm_compute. auto. }
  destruct (commitments_kept (repeat rowT 31) _ TeacherConflict Ha eq_refl)
    as [H _].
  exact H.
Defined.

(** ** Determinism *)









Section HeapRun.

Variable alloc : gmap positive (gset string) -> positive.
Hypothesis alloc_fresh : forall heap, heap !! alloc heap = None.
Variable heap0 : gmap positive (gset string).







End HeapRun.





Lemma unparseable_no_probe (cur teacher room group : string)
    (occ : gmap string SlotData) :
  unparseable cur = true ->
  findNextAvailableSlotProbes cur teacher room group occ = (None, [])
  /\ findNextAvailableSlot cur teacher room group occ = None.
Proof.
  intros H. rewrite probes_result, search_candidateOrder.
  rewrite (unparseable_early_return cur H). split; reflexivity.
Qed.

(** The early returns of the search: for a slot that is empty, or whose
    text before the first dash is not a day, or whose text between the first
    and the second dash (up to the end when there is one dash only) is
    missing or not a period, the search returns nothing and tests no
    candidate, and a row with such an original slot keeps it. *)
Theorem unparseable_never_relocated (rows : list TimetableRow)
    (a : Assignment) :
  In a (assignments (mergeAndResolve rows)) ->
  unparseable (slotFromRow (row a)) = true ->
  assignedSlot a = slotFromRow (row a)
  /\ (forall cur t r g occ,
        unparseable cur = true ->
        findNextAvailableSlotProbes cur t r g occ = (None, [])
        /\ findNextAvailableSlot cur t r g occ = None)
  /\ (forall cur, dayComponent cur = beforeFirst "-" cur)
  /\ (forall cur,
        periodComponent cur
        = if includesChar "-" cur
          then Some (beforeFirst "-" (afterFirst "-" cur)) else None).
Proof.
  intros Ha Hu.
  split; [|split; [intros; apply unparseable_no_probe; assumption
                  |split; [apply dayComponent_beforeFirst
                          |apply periodComponent_text]]].
  assert (H := merge_Forall
    (fun a => unparseable (slotFromRow (row a)) = true ->
              assignedSlot a = slotFromRow (row a)) rows).
  rewrite List.Forall_forall in H. apply H; [|exact Ha|exact Hu].
  intros r occ _ Hur. simpl in *.
  destruct (chooseSlot_slot r occ) as [E|(_ & E & _)]; [exact E|].
  unfold relocationOf in E.
  rewrite (proj2 (unparseable_no_probe _ _ _ _ occ Hur)) in E.
  discriminate E.
Qed.

Lemma unparseable_never_relocated_witness :
  assignedSlot (mkAssignment rowSaturday "Saturday-P1")
  = slotFromRow rowSaturday.
Proof.
  assert (Ha : In (mkAssignment rowSaturday "Saturday-P1")
                  (assignments (mergeAndResolve [rowSaturday; rowSaturday]))).
  { vm_compute. auto. }
  destruct (unparseable_never_relocated [rowSaturday; rowSaturday] _ Ha
              eq_refl) as [H _].
  exact H.
Defined.

(** C10 fails of the code at rows of day [Mon-P1] and period [P3]: their
    original slot [Mon-P1-P3] is not a slot of the grid and the text after
    its first dash, [P1-P3], is not a period; yet the destructuring of
    [split('-')] keeps the first two components only and drops [P3], both
    [indexOf] succeed and the guard is passed.  The search started at
    [Mon-P1-P3] then runs from Mon / P1, tests Mon-P2 and returns it, so the
    second of two such rows is relocated to Mon-P2, with the console line of
    a move and no conflict reported; the first one keeps the slot
    [Mon-P1-P3]. *)
Lemma dashed_day_relocated :
  slotFromRow rowDashedDay = "Mon-P1-P3"
  /\ isCanonicalSlot "Mon-P1-P3" = false
  /\ afterFirst "-" "Mon-P1-P3" = "P1-P3"
  /\ includes PERIODS "P1-P3" = false
  /\ specUnparseable "Mon-P1-P3" = true
  /\ split "-" "Mon-P1-P3" = ["Mon"; "P1"; "P3"]
  /\ dayComponent "Mon-P1-P3" = "Mon"
  /\ periodComponent "Mon-P1-P3" = Some "P1"
  /\ unparseable "Mon-P1-P3" = false
  /\ slotIndices "Mon-P1-P3" = Some ("Mon", 0%nat, 0%nat)
  /\ findNextAvailableSlotProbes "Mon-P1-P3" "T" EmptyString EmptyString ∅
     = (Some "Mon-P2", ["Mon-P2"])
  /\ findNextAvailableSlot "Mon-P1-P3" "T" EmptyString EmptyString ∅
     = Some "Mon-P2"
  /\ map assignedSlot
       (assignments (mergeAndResolve [rowDashedDay; rowDashedDay]))
     = ["Mon-P1-P3"; "Mon-P2"]
  /\ st_console (mergeState [rowDashedDay; rowDashedDay])
     = [Moved None "Mon-P1-P3" "Mon-P2"]
  /\ conflicts (mergeAndResolve [rowDashedDay; rowDashedDay]) = [].
Proof. repeat split; vm_compute; reflexivity. Qed.

(** ** Insertion-ordered grouping *)

Section Grouping.

Context {A : Type}.
Implicit Types (m : list (string * list A)) (k : string).

Lemma mapGet_mapPush k k' (a : A) m :
  mapGet k' (mapPush k a m)
  = if String.eqb k k' then Some (default [] (mapGet k m) ++ [a])
    else mapGet k' m.
Proof.
  induction m as [|[k0 l] m IH]; simpl.
  - destruct (String.eqb k k'); reflexivity.
  - destruct (String.eqb_spec k0 k) as [->|Hne]; simpl.
    + destruct (String.eqb k k'); reflexivity.
    + rewrite IH. destruct (String.eqb_spec k k') as [->|Hne'].
      * apply String.eqb_neq in Hne. rewrite Hne. reflexivity.
      * reflexivity.
Qed.

Lemma mapPush_keys k (a : A) m :
  map fst (mapPush k a m)
  = if existsb (String.eqb k) (map fst m) then map fst m
    else map fst m ++ [k].
Proof.
  induction m as [|[k0 l] m IH]; simpl; [reflexivity|].
  rewrite (String.eqb_sym k k0).
  destruct (String.eqb k0 k); simpl; [reflexivity|].
  rewrite IH. destruct (existsb _ _); reflexivity.
Qed.

Lemma mapPush_NoDup k (a : A) m :
  List.NoDup (map fst m) -> List.NoDup (map fst (mapPush k a m)).
Proof.
  intros H. rewrite mapPush_keys.
  destruct (existsb (String.eqb k) (map fst m)) eqn:E; [exact H|].
  apply List.NoDup_app; [exact H | repeat constructor; simpl; tauto |].
  intros x Hx [<-|[]].
  assert (F : existsb (String.eqb k) (map fst m) = true).
  { apply existsb_exists. exists k. split; [exact Hx|apply String.eqb_refl]. }
  congruence.
Qed.

Lemma mapGet_In k (l : list A) m : mapGet k m = Some l -> In (k, l) m.
Proof.
  induction m as [|[k0 l0] m IH]; simpl; [discriminate|].
  destruct (String.eqb_spec k0 k) as [->|Hne].
  - intros [= ->]. auto.
  - auto.
Qed.

Lemma In_mapGet k (l : list A) m :
  List.NoDup (map fst m) -> In (k, l) m -> mapGet k m = Some l.
Proof.
  induction m as [|[k0 l0] m IH]; simpl; [contradiction|].
  intros Hnd [[= -> ->]|Hin].
  - rewrite String.eqb_refl. reflexivity.
  - inversion Hnd as [|? ? Hk0 Hm]; subst.
    destruct (String.eqb_spec k0 k) as [->|Hne]; [|auto].
    exfalso. apply Hk0. apply in_map_iff. exists (k, l). auto.
Qed.

End Grouping.

Section GroupByKey.

Variable key : Assignment -> string.

Lemma groupByKey_snoc (l : list Assignment) (a : Assignment) :
  groupByKey key (l ++ [a])
  = if nonEmpty (key a) then mapPush (key a) a (groupByKey key l)
    else groupByKey key l.
Proof. unfold groupByKey. rewrite fold_left_app. reflexivity. Qed.

Lemma groupByKey_NoDup (l : list Assignment) :
  List.NoDup (map fst (groupByKey key l)).
Proof.
  induction l as [|a l IH] using rev_ind; [constructor|].
  rewrite groupByKey_snoc. destruct (nonEmpty (key a)); [|exact IH].
  apply mapPush_NoDup, IH.
Qed.

Lemma groupByKey_get (l : list Assignment) (k : string) :
  mapGet k (groupByKey key l)
  = if nonEmpty k
    then match List.filter (sameKey key k) l with
         | [] => None
         | es => Some es
         end
    else None.
Proof.
  induction l as [|a l IH] using rev_ind.
  { simpl. destruct (nonEmpty k); reflexivity. }
  rewrite groupByKey_snoc, List.filter_app. simpl. unfold sameKey at 2.
  destruct (nonEmpty (key a)) eqn:Ea.
  - rewrite mapGet_mapPush.
    destruct (String.eqb_spec (key a) k) as [<-|Hne].
    + rewrite IH, Ea.
      destruct (List.filter (sameKey key (key a)) l); reflexivity.
    + rewrite app_nil_r. exact IH.
  - destruct (String.eqb_spec (key a) k) as [<-|Hne].
    + rewrite IH, Ea. reflexivity.
    + rewrite app_nil_r. exact IH.
Qed.

(** The groups are the non-empty classes of the non-empty keys, each in
    input order. *)
Lemma groupByKey_In (l : list Assignment) (k : string)
    (es : list Assignment) :
  In (k, es) (groupByKey key l)
  <-> nonEmpty k = true /\ es = List.filter (sameKey key k) l /\ es <> [].
Proof.
  split.
  - intros H. apply (In_mapGet _ _ _ (groupByKey_NoDup l)) in H.
    rewrite groupByKey_get in H.
    destruct (nonEmpty k); [|discriminate].
    destruct (List.filter (sameKey key k) l) eqn:E; [discriminate|].
    injection H as <-. repeat split. discriminate.
  - intros (Hk & -> & Hne). apply mapGet_In.
    rewrite groupByKey_get, Hk.
    destruct (List.filter (sameKey key k) l); [congruence|reflexivity].
Qed.

End GroupByKey.

(** ** The conflict report *)

Lemma filter_filter_and (f g : Assignment -> bool) (l : list Assignment) :
  List.filter f (List.filter g l) = List.filter (fun x => g x && f x) l.
Proof.
  induction l as [|x l IH]; simpl; [reflexivity|].
  destruct (g x); simpl; [|exact IH].
  destruct (f x); rewrite IH; reflexivity.
Qed.

Lemma filter_two (f : Assignment -> bool) (l : list Assignment) (i j : nat)
    (a b : Assignment) :
  (i < j)%nat ->
  nth_error l i = Some a -> nth_error l j = Some b ->
  f a = true -> f b = true ->
  (1 < length (List.filter f l))%nat.
Proof.
  revert i j. induction l as [|x l IH]; intros i j Hij Hi Hj Ha Hb.
  { destruct i; discriminate Hi. }
  destruct j as [|j]; [lia|]. simpl in Hj.
  destruct i as [|i]; simpl in Hi.
  - injection Hi as ->. simpl. rewrite Ha. simpl.
    assert (Hin : In b (List.filter f l)).
    { apply filter_In. split; [|exact Hb]. eapply nth_error_In, Hj. }
    destruct (List.filter f l); [contradiction|simpl; lia].
  - assert (H := IH i j ltac:(lia) Hi Hj Ha Hb).
    simpl. destruct (f x); simpl; lia.
Qed.

Lemma conflictsOn_In (ty : ConflictType) (key : Assignment -> string)
    (s : string) (sa : list Assignment) (c : Conflict) :
  In c (conflictsOn ty key s sa)
  <-> exists res es,
        In (res, es) (groupByKey key sa) /\ (1 < length es)%nat
        /\ c = mkConflict ty s es res.
Proof.
  unfold conflictsOn. rewrite in_flat_map. split.
  - intros ([res es] & Hin & Hc).
    destruct (1 <? length es)%nat eqn:E; [|contradiction].
    destruct Hc as [<-|[]]. exists res, es. apply Nat.ltb_lt in E. auto.
  - intros (res & es & Hin & Hlen & ->). exists (res, es).
    split; [exact Hin|]. apply Nat.ltb_lt in Hlen. rewrite Hlen.
    left. reflexivity.
Qed.

Lemma detectConflicts_In (l : list Assignment) (c : Conflict) :
  In c (detectConflicts l)
  <-> exists s sa,
        In (s, sa) (groupByKey assignedSlot l) /\ (1 < length sa)%nat
        /\ In c (conflictsOn TeacherConflict teacherKey s sa
                 ++ conflictsOn RoomConflict roomKey s sa
                 ++ conflictsOn GroupConflict groupKey s sa).
Proof.
  unfold detectConflicts. rewrite in_flat_map. split.
  - intros ([s sa] & Hin & Hc).
    destruct (length sa <=? 1)%nat eqn:E; [contradiction|].
    apply Nat.leb_gt in E. eauto.
  - intros (s & sa & Hin & Hlen & Hc). exists (s, sa).
    split; [exact Hin|]. apply Nat.leb_gt in Hlen. rewrite Hlen. exact Hc.
Qed.

Lemma conflictsOn_kind (c : Conflict) (s : string) (sa : list Assignment) :
  In c (conflictsOn TeacherConflict teacherKey s sa
        ++ conflictsOn RoomConflict roomKey s sa
        ++ conflictsOn GroupConflict groupKey s sa)
  <-> In c (conflictsOn (type c) (resourceKey (type c)) s sa).
Proof.
  rewrite !in_app_iff, !conflictsOn_In. split.
  - intros [H|[H|H]]; destruct H as (res & es & Hin & Hlen & ->); simpl;
      exists res, es; auto.
  - intros (res & es & Hin & Hlen & E). destruct c as [ty s' es' res'].
    simpl in *. inversion E; subst.
    destruct ty; [left|right; left|right; right]; exists res, es; auto.
Qed.

(** What is reported, exactly: one Conflict for each kind, non-empty slot
    and non-empty resource identity shared by more than one Assignment of
    that slot, carrying those Assignments in input order. *)
Lemma detectConflicts_spec (l : list Assignment) (c : Conflict) :
  In c (detectConflicts l)
  <-> nonEmpty (slot c) = true /\ nonEmpty (resource c) = true
      /\ (1 < length (conflictingEntries c))%nat
      /\ conflictingEntries c
         = List.filter (sameKey (resourceKey (type c)) (resource c))
             (List.filter (sameKey assignedSlot (slot c)) l).
Proof.
  rewrite detectConflicts_In. split.
  - intros (s & sa & Hin & Hlen & Hc).
    apply conflictsOn_kind in Hc. apply conflictsOn_In in Hc.
    destruct Hc as (res & es & Hes & Hl & E).
    apply groupByKey_In in Hin as (Hs & -> & _).
    apply groupByKey_In in Hes as (Hr & -> & _).
    destruct c as [ty s' es' res']. simpl in *. inversion E; subst.
    auto.
  - intros (Hs & Hr & Hlen & E).
    exists (slot c), (List.filter (sameKey assignedSlot (slot c)) l).
    assert (Hle := List.filter_length_le
                     (sameKey (resourceKey (type c)) (resource c))
                     (List.filter (sameKey assignedSlot (slot c)) l)).
    rewrite <- E in Hle.
    split.
    { apply groupByKey_In. repeat split; [exact Hs|].
      intros H0. rewrite H0 in Hle. simpl in Hle. lia. }
    split; [lia|].
    apply conflictsOn_kind, conflictsOn_In.
    exists (resource c), (conflictingEntries c).
    split; [|split; [exact Hlen|destruct c; reflexivity]].
    apply groupByKey_In. repeat split; [exact Hr|exact E|].
    intros H0. rewrite H0 in Hlen. simpl in Hlen. lia.
Qed.

Lemma conflict_entries_assigned (l : list Assignment) (c : Conflict)
    (a : Assignment) :
  In c (detectConflicts l) -> In a (conflictingEntries c) -> In a l.
Proof.
  intros Hc Ha. apply detectConflicts_spec in Hc as (_ & _ & _ & E).
  rewrite E in Ha. apply filter_In in Ha as [Ha _].
  apply filter_In in Ha as [Ha _]. exact Ha.
Qed.

(** Two Assignments at different positions with one slot and one resource
    identity of some kind are reported together. *)
Lemma shared_resource_reported (l : list Assignment) (kind : ConflictType)
    (i j : nat) (a b : Assignment) :
  i <> j ->
  nth_error l i = Some a -> nth_error l j = Some b ->
  nonEmpty (assignedSlot a) = true ->
  assignedSlot a = assignedSlot b ->
  nonEmpty (resourceKey kind a) = true ->
  resourceKey kind a = resourceKey kind b ->
  exists c,
    In c (detectConflicts l)
    /\ c = mkConflict kind (assignedSlot a)
             (List.filter (sameKey (resourceKey kind) (resourceKey kind a))
                (List.filter (sameKey assignedSlot (assignedSlot a)) l))
             (resourceKey kind a)
    /\ In a (conflictingEntries c) /\ In b (conflictingEntries c).
Proof.
  intros Hij Hi Hj Hs Hsab Hr Hrab.
  eexists. split; [|split; [reflexivity|]].
  - apply detectConflicts_spec. simpl. repeat split; [exact Hs|exact Hr|].
    rewrite filter_filter_and.
    assert (Fa : sameKey assignedSlot (assignedSlot a) a
                 && sameKey (resourceKey kind) (resourceKey kind a) a = true).
    { unfold sameKey. rewrite !String.eqb_refl. reflexivity. }
    assert (Fb : sameKey assignedSlot (assignedSlot a) b
                 && sameKey (resourceKey kind) (resourceKey kind a) b = true).
    { unfold sameKey. rewrite <- Hsab, <- Hrab, !String.eqb_refl.
      reflexivity. }
    destruct (Nat.lt_total i j) as [Hlt|[Heq|Hgt]]; [|contradiction|].
    + exact (filter_two _ l i j a b Hlt Hi Hj Fa Fb).
    + exact (filter_two _ l j i b a Hgt Hj Hi Fb Fa).
  - simpl. unfold sameKey.
    split; repeat (apply filter_In; split);
      try (eapply nth_error_In; eassumption);
      rewrite <- ?Hsab, <- ?Hrab; apply String.eqb_refl.
Qed.

Lemma assignment_of_row (rows : list TimetableRow) (i : nat)
    (r : TimetableRow) :
  nth_error (List.filter isValidRow rows) i = Some r ->
  exists a, nth_error (assignments (mergeAndResolve rows)) i = Some a
            /\ row a = r.
Proof.
  rewrite <- assignments_rows, nth_error_map.
  destruct (nth_error (assignments (mergeAndResolve rows)) i) as [a|];
    simpl; [|discriminate].
  intros [= <-]. eauto.
Qed.

(** C1: two valid rows with the same non-empty trimmed teacher are either
    assigned different slots, or a teacher Conflict at their common slot
    lists both Assignments. *)
Theorem no_silent_teacher_double_booking (rows : list TimetableRow)
    (i j : nat) (r1 r2 : TimetableRow) :
  let res := mergeAndResolve rows in
  let validRows := List.filter isValidRow rows in
  i <> j ->
  nth_error validRows i = Some r1 ->
  nth_error validRows j = Some r2 ->
  trim (orEmpty (teacher r1)) <> EmptyString ->
  trim (orEmpty (teacher r1)) = trim (orEmpty (teacher r2)) ->
  exists a b,
    nth_error (assignments res) i = Some a /\ row a = r1
    /\ nth_error (assignments res) j = Some b /\ row b = r2
    /\ (assignedSlot a <> assignedSlot b
        \/ exists c,
             In c (conflicts res)
             /\ type c = TeacherConflict
             /\ slot c = assignedSlot a /\ slot c = assignedSlot b
             /\ resource c = trim (orEmpty (teacher r1))
             /\ In a (conflictingEntries c) /\ In b (conflictingEntries c)).
Proof.
  intros res validRows Hij H1 H2 Hne Heq.
  destruct (assignment_of_row rows i r1 H1) as (a & Ha & Hra).
  destruct (assignment_of_row rows j r2 H2) as (b & Hb & Hrb).
  exists a, b. repeat (split; [assumption|]).
  destruct (string_dec (assignedSlot a) (assignedSlot b)) as [Hs|Hs];
    [right|left; exact Hs].
  destruct (assigned_slot_ok rows a (nth_error_In _ _ Ha)) as [_ Hsa].
  assert (Hka : resourceKey TeacherConflict a = trim (orEmpty (teacher r1))).
  { simpl. unfold teacherKey. rewrite Hra. reflexivity. }
  assert (Hkb : resourceKey TeacherConflict b = trim (orEmpty (teacher r1))).
  { simpl. unfold teacherKey. rewrite Hrb. symmetry. exact Heq. }
  destruct (shared_resource_reported (assignments res) TeacherConflict i j a b
              Hij Ha Hb Hsa Hs) as (c & Hc & Ec & Hina & Hinb).
  { rewrite Hka. apply nonEmpty_true, Hne. }
  { rewrite Hka, Hkb. reflexivity. }
  exists c. split; [exact Hc|]. rewrite Ec at 1 2 3 4. simpl.
  rewrite <- Hs. fold (teacherKey a). auto 10.
Qed.

Lemma no_silent_teacher_double_booking_witness :
  exists a b,
    nth_error (assignments (mergeAndResolve (repeat rowT 31))) 0 = Some a
    /\ nth_error (assignments (mergeAndResolve (repeat rowT 31))) 30 = Some b
    /\ (assignedSlot a <> assignedSlot b
        \/ exists c,
             In c (conflicts (mergeAndResolve (repeat rowT 31)))
             /\ slot c = assignedSlot a
             /\ In a (conflictingEntries c) /\ In b (conflictingEntries c)).
Proof.
  destruct (no_silent_teacher_double_booking (repeat rowT 31) 0 30 rowT rowT)
    as (a & b & Ha & _ & Hb & _ & H);
    [lia | reflexivity | reflexivity | discriminate | reflexivity |].
  exists a, b. split; [exact Ha|]. split; [exact Hb|].
  destruct H as [H|(c & Hc & _ & Hs & _ & _ & Hia & Hib)]; [left; exact H|].
  right. exists c. exact (conj Hc (conj Hs (conj Hia Hib))).
Defined.

(** ** The validity gate of the pass *)

Lemma entriesOf_mapPush (k : string) (a x : Assignment)
    (m : list (string * list Assignment)) :
  In x (entriesOf (mapPush k a m)) <-> In x (entriesOf m) \/ x = a.
Proof.
  unfold entriesOf. induction m as [|[k0 l] m IH]; simpl.
  - intuition.
  - destruct (String.eqb k0 k); simpl; rewrite !in_app_iff.
    + simpl. intuition.
    + rewrite IH. intuition.
Qed.

Lemma separated_entries (rows : list TimetableRow) (st : PassState) :
  (forall x, In x (entriesOf (st_separated st)) <-> In x (st_assignments st)) ->
  forall x, In x (entriesOf (st_separated (resolveRows st rows)))
            <-> In x (st_assignments (resolveRows st rows)).
Proof.
  revert st. induction rows as [|r rows IH]; intros st H; [exact H|].
  simpl. apply IH. intros x. rewrite resolveRow_commit. simpl.
  rewrite entriesOf_mapPush, in_app_iff, H. simpl. intuition.
Qed.

Lemma slotFromRow_dash (r : TimetableRow) :
  nonEmpty (slotFromRow r) = true -> includesChar "-" (slotFromRow r) = true.
Proof.
  unfold slotFromRow.
  destruct (isEmpty _ || isEmpty _); [discriminate|].
  intros _. apply (slotKey_dash _ _).
Qed.

Lemma isValidRow_iff (r : TimetableRow) :
  isValidRow r = true
  <-> slotFromRow r <> EmptyString
      /\ (truthy (teacher r) || truthy (room r) || truthy (group r)) = true.
Proof.
  unfold isValidRow. rewrite !andb_true_iff, nonEmpty_true. split.
  - tauto.
  - intros [H1 H2]. repeat split; try assumption.
    apply slotFromRow_dash, nonEmpty_true, H1.
Qed.

(** The gate of the pass as the code has it: the rows that take part are
    those with a non-empty [slotFromRow] and a teacher, room or group that
    is a non-empty string, white space included, since the filter does not
    trim; exactly these rows appear in the assignments, the conflicts and
    the per-source groupings, and the assignments are these rows in input
    order. *)
Theorem validity_gate (rows : list TimetableRow) (r : TimetableRow) :
  let res := mergeAndResolve rows in
  (appearsIn res r <-> In r rows /\ isValidRow r = true)
  /\ (isValidRow r = true
      <-> slotFromRow r <> EmptyString
          /\ (truthy (teacher r) || truthy (room r) || truthy (group r))
             = true)
  /\ map row (assignments res) = List.filter isValidRow rows.
Proof.
  intros res. split; [|split; [apply isValidRow_iff|apply assignments_rows]].
  assert (Hsep : forall x, In x (entriesOf (separatedTimetables res))
                           <-> In x (assignments res)).
  { apply separated_entries. simpl. tauto. }
  rewrite <- filter_In, <- assignments_rows. fold res.
  unfold appearsIn. split; [|auto].
  intros [H|[(c & a & Hc & Ha & <-)|H]]; [exact H| |].
  - apply in_map. eapply conflict_entries_assigned; eassumption.
  - apply in_map_iff in H as (a & <- & Ha). apply in_map, Hsep, Ha.
Qed.


(** ** Scenarios *)

Lemma committed_unavailable (occ : gmap string SlotData)
    (s teacher room group : string) :
  nonEmpty teacher = true ->
  committed occ TeacherConflict s teacher = true ->
  isSlotAvailable s teacher room group occ = false.
Proof.
  unfold committed, isSlotAvailable. intros Hne.
  destruct (occ !! s) as [sd|]; [|discriminate].
  simpl. intros ->. rewrite Hne. reflexivity.
Qed.

Lemma unseen_available (occ : gmap string SlotData)
    (s teacher room group : string) :
  occ !! s = None -> isSlotAvailable s teacher room group occ = true.
Proof. unfold isSlotAvailable. intros ->. reflexivity. Qed.

Lemma find_middle (test : string -> bool) (l1 l2 : list string) (x : string) :
  (forall y, In y l1 -> test y = false) -> test x = true ->
  List.find test (l1 ++ x :: l2) = Some x.
Proof.
  intros H1 Hx. rewrite find_app.
  apply find_none_iff in H1. rewrite H1. simpl. rewrite Hx. reflexivity.
Qed.

Lemma canonicalSlots_NoDup : List.NoDup canonicalSlots.
Proof.
  apply (List.NoDup_count_occ' string_dec). intros x Hx.
  repeat (destruct Hx as [<-|Hx]; [vm_compute; reflexivity|]).
  destruct Hx.
Qed.

Lemma asks_row (r : TimetableRow) :
  asksMonP1WithT r ->
  slotFromRow r = "Mon-P1" /\ trim (orEmpty (teacher r)) = "T"
  /\ isValidRow r = true.
Proof.
  destruct r as [d p sb t g rm sf]. unfold asksMonP1WithT. simpl.
  intros (-> & -> & ->). repeat split.
Qed.

(** The slot chosen for a row of the scenario when teacher T already holds
    the slots [done] of the grid and nothing is recorded at the others: the
    next slot of the grid. *)
Lemma asks_next_slot (r : TimetableRow) (occ : gmap string SlotData)
    (done todo : list string) (s : string) :
  asksMonP1WithT r ->
  canonicalSlots = done ++ s :: todo ->
  (forall x, In x done -> committed occ TeacherConflict x "T" = true) ->
  occ !! s = None ->
  fst (chooseSlot r occ) = s.
Proof.
  intros Hr Hsplit Hdone Hs.
  destruct (asks_row r Hr) as (Eslot & Et & _).
  unfold chooseSlot. rewrite Eslot, Et.
  assert (Hin : In s canonicalSlots) by (rewrite Hsplit; apply in_elt).
  assert (Hhd : hd EmptyString (done ++ s :: todo) = "Mon-P1")
    by (rewrite <- Hsplit; reflexivity).
  assert (Htl : tl (done ++ s :: todo) = candidateOrder "Mon-P1")
    by (rewrite <- Hsplit; reflexivity).
  destruct done as [|d0 done']; simpl in Hhd, Htl; subst.
  - rewrite (unseen_available _ _ _ _ _ Hs). reflexivity.
  - rewrite (committed_unavailable occ "Mon-P1" "T" _ _ eq_refl
               (Hdone _ (or_introl eq_refl))).
    simpl negb. cbv iota.
    rewrite probes_result, search_candidateOrder, <- Htl. simpl fst.
    rewrite find_middle.
    + rewrite (canonical_nonEmpty s Hin). reflexivity.
    + intros y Hy. apply committed_unavailable; [reflexivity|].
      apply Hdone. right. exact Hy.
    + apply unseen_available, Hs.
Qed.

Lemma asks_fill_grid (rows : list TimetableRow) :
  forall (done todo : list string) (st : PassState),
    canonicalSlots = done ++ todo ->
    (length rows <= length todo)%nat ->
    List.Forall asksMonP1WithT rows ->
    (forall x, In x done ->
               committed (st_occupied st) TeacherConflict x "T" = true) ->
    (forall x, In x todo -> st_occupied st !! x = None) ->
    map assignedSlot (st_assignments (resolveRows st rows))
    = map assignedSlot (st_assignments st) ++ firstn (length rows) todo.
Proof.
  induction rows as [|r rows IH]; intros done todo st Hsplit Hlen Hrows Hd Ht.
  { simpl. rewrite app_nil_r. reflexivity. }
  destruct todo as [|s todo]; [simpl in Hlen; lia|].
  inversion Hrows as [|? ? Hr Hrest]; subst.
  assert (Es : fst (chooseSlot r (st_occupied st)) = s).
  { apply (asks_next_slot r _ done todo s Hr Hsplit Hd).
    apply Ht. left. reflexivity. }
  assert (Hnd := canonicalSlots_NoDup). rewrite Hsplit in Hnd.
  apply List.NoDup_remove_2 in Hnd.
  simpl resolveRows.
  rewrite (IH (done ++ [s]) todo (resolveRow st r)).
  - rewrite resolveRow_commit, Es. simpl.
    rewrite map_app, <- app_assoc. reflexivity.
  - rewrite <- app_assoc. exact Hsplit.
  - simpl in Hlen. lia.
  - exact Hrest.
  - intros x Hx. apply in_app_or in Hx as [Hx|[<-|[]]].
    + apply resolveRow_keeps, Hd, Hx.
    + pose proof (resolveRow_commits st r TeacherConflict) as Hc.
      simpl in Hc. destruct (asks_row r Hr) as (_ & Et & _).
      unfold resourceKey in Hc. simpl in Hc. rewrite Et, Es in Hc.
      apply Hc. reflexivity.
  - intros x Hx. rewrite resolveRow_commit, Es. simpl.
    rewrite addToSlot_insert, lookup_insert_ne.
    + apply Ht. right. exact Hx.
    + intros <-. apply Hnd. apply in_or_app. right. exact Hx.
Qed.

Lemma sameKey_at_most_once (key : Assignment -> string) (k : string)
    (l : list Assignment) :
  List.NoDup (map key l) ->
  (length (List.filter (sameKey key k) l) <= 1)%nat.
Proof.
  induction l as [|a l IH]; simpl; [lia|].
  intros Hnd. inversion Hnd as [|? ? Ha Hl]; subst.
  unfold sameKey at 1. destruct (String.eqb_spec (key a) k) as [<-|Hne];
    [|apply IH, Hl].
  assert (E : List.filter (sameKey key (key a)) l = []).
  { destruct (List.filter (sameKey key (key a)) l) as [|b t] eqn:Ef;
      [reflexivity|].
    exfalso. apply Ha.
    assert (Hb : In b (List.filter (sameKey key (key a)) l))
      by (rewrite Ef; left; reflexivity).
    apply filter_In in Hb as [Hb Hk]. apply String.eqb_eq in Hk.
    rewrite <- Hk. apply in_map, Hb. }
  rewrite E. simpl. lia.
Qed.

(** Distinct slots, no Conflict. *)
Lemma distinct_slots_no_conflict (l : list Assignment) :
  List.NoDup (map assignedSlot l) -> detectConflicts l = [].
Proof.
  intros Hnd. destruct (detectConflicts l) as [|c cs] eqn:E; [reflexivity|].
  assert (Hc : In c (detectConflicts l)) by (rewrite E; left; reflexivity).
  apply detectConflicts_spec in Hc as (_ & _ & Hlen & Ec).
  rewrite Ec in Hlen.
  pose proof (List.filter_length_le
                (sameKey (resourceKey (type c)) (resource c))
                (List.filter (sameKey assignedSlot (slot c)) l)).
  pose proof (sameKey_at_most_once assignedSlot (slot c) l Hnd). lia.
Qed.

(** C7: thirty rows asking for Mon-P1 with teacher T (whatever their other
    fields) are assigned the thirty slots of the grid in search order from
    Mon-P1, each once, without any Conflict. *)
Theorem scenario_thirty_rows (rows : list TimetableRow) :
  length rows = 30%nat ->
  List.Forall asksMonP1WithT rows ->
  let res := mergeAndResolve rows in
  map assignedSlot (assignments res)
  = [ "Mon-P1"; "Mon-P2"; "Mon-P3"; "Mon-P4"; "Mon-P5"; "Mon-P6";
      "Tue-P1"; "Tue-P2"; "Tue-P3"; "Tue-P4"; "Tue-P5"; "Tue-P6";
      "Wed-P1"; "Wed-P2"; "Wed-P3"; "Wed-P4"; "Wed-P5"; "Wed-P6";
      "Thu-P1"; "Thu-P2"; "Thu-P3"; "Thu-P4"; "Thu-P5"; "Thu-P6";
      "Fri-P1"; "Fri-P2"; "Fri-P3"; "Fri-P4"; "Fri-P5"; "Fri-P6" ]
  /\ map assignedSlot (assignments res) = "Mon-P1" :: candidateOrder "Mon-P1"
  /\ map row (assignments res) = rows
  /\ List.NoDup (map assignedSlot (assignments res))
  /\ conflicts res = [].
Proof.
  intros Hlen Hrows res.
  assert (Hvalid : List.filter isValidRow rows = rows).
  { clear Hlen. induction rows as [|r rows IH]; [reflexivity|].
    inversion Hrows as [|? ? Hr Hrest]; subst. simpl.
    destruct (asks_row r Hr) as (_ & _ & ->). rewrite (IH Hrest).
    reflexivity. }
  assert (E : map assignedSlot (assignments res) = canonicalSlots).
  { unfold res. simpl. unfold mergeState. rewrite Hvalid.
    rewrite (asks_fill_grid rows [] canonicalSlots initialState);
      try reflexivity; try assumption.
    - rewrite Hlen. reflexivity.
    - rewrite Hlen. simpl. lia.
    - intros x []. }
  split; [exact E|]. split; [exact E|].
  split; [unfold res; rewrite assignments_rows; exact Hvalid|].
  split; [rewrite E; apply canonicalSlots_NoDup|].
  change (conflicts res) with (detectConflicts (assignments res)).
  apply distinct_slots_no_conflict. rewrite E. apply canonicalSlots_NoDup.
Qed.

Lemma scenario_thirty_rows_witness :
  map assignedSlot (assignments (mergeAndResolve (repeat rowT 30)))
  = "Mon-P1" :: candidateOrder "Mon-P1"
  /\ conflicts (mergeAndResolve (repeat rowT 30)) = [].
Proof.
  assert (Hrows : List.Forall asksMonP1WithT (repeat rowT 30)).
  { apply List.Forall_forall. intros r Hr. apply repeat_spec in Hr.
    subst r. repeat split. }
  destruct (scenario_thirty_rows (repeat rowT 30) eq_refl Hrows)
    as (_ & H1 & _ & _ & H2).
  split; [exact H1 | exact H2].
Defined.

(** Scenario A of the specification. *)
Example scenario_two_rows :
  let r1 := mkRow "Mon" "P1" (Some "Math") (Some "Alice") (Some "G1")
              (Some "R1") None in
  let r2 := mkRow "Mon" "P1" (Some "Science") (Some "Alice") (Some "G2")
              (Some "R2") None in
  map assignedSlot (assignments (mergeAndResolve [r1; r2]))
  = ["Mon-P1"; "Mon-P2"]
  /\ conflicts (mergeAndResolve [r1; r2]) = [].
Proof. split; vm_compute; reflexivity. Qed.

(** Scenario C of the specification: the 31st row keeps Mon-P1 and one
    teacher Conflict lists it with the first row. *)
Example scenario_thirty_one_rows :
  let res := mergeAndResolve (repeat rowT 31) in
  nth_error (map assignedSlot (assignments res)) 30 = Some "Mon-P1"
  /\ conflicts res
     = [mkConflict TeacherConflict "Mon-P1"
          [mkAssignment rowT "Mon-P1"; mkAssignment rowT "Mon-P1"] "T"].
Proof. split; vm_compute; reflexivity. Qed.

(** * Further properties *)

(** ** Normalizer *)

Lemma normalizeDay_cases (d : string) :
  In (normalizeDay d) DAYS \/ normalizeDay d = d
  \/ inheritedProperty (toLowerCase d) = Some (normalizeDay d).
Proof.
  unfold normalizeDay, inheritedProperty, dayMappings, tableGet.
  repeat match goal with
         | |- context [String.eqb ?a ?b] => destruct (String.eqb a b)
         end; simpl; auto 10.
Qed.

Lemma normalizeDay_fixes_days (d : string) :
  In d DAYS -> normalizeDay d = d.
Proof.
  intros H. repeat (destruct H as [<-|H]; [reflexivity|]). destruct H.
Qed.

Lemma inherited_not_day (k v : string) :
  inheritedProperty k = Some v -> ~ In v DAYS /\ nonEmpty v = true.
Proof.
  unfold inheritedProperty.
  destruct (String.eqb k "constructor");
    [|destruct (String.eqb k "__proto__"); [|discriminate]];
    intros [= <-]; (split; [|reflexivity]);
    intros H; repeat (destruct H as [H|H]; [discriminate H|]); destruct H.
Qed.

Lemma inherited_not_argument (d v : string) :
  inheritedProperty (toLowerCase d) = Some v -> v <> d.
Proof.
  unfold inheritedProperty. intros H ->.
  destruct (String.eqb_spec (toLowerCase d) "constructor") as [E|_].
  { injection H as <-. discriminate E. }
  destruct (String.eqb_spec (toLowerCase d) "__proto__") as [E|_];
    [|discriminate H].
  injection H as <-. discriminate E.
Qed.

Lemma normalizeDay_hit (d : string) :
  In (normalizeDay d) DAYS ->
  exists v, tableGet dayMappings (toLowerCase d) = Some v
            /\ normalizeDay d = v /\ nonEmpty v = true.
Proof.
  intros H.
  destruct (tableGet dayMappings (toLowerCase d)) as [v|] eqn:E.
  - assert (Hv : nonEmpty v = true).
    { revert E. unfold dayMappings, tableGet.
      repeat match goal with
             | |- context [String.eqb ?a ?b] => destruct (String.eqb a b)
             end; intros [= <-]; reflexivity. }
    exists v. unfold normalizeDay. rewrite E, Hv. auto.
  - exfalso. unfold normalizeDay in H. rewrite E in H.
    destruct (inheritedProperty (toLowerCase d)) as [v|] eqn:Ei.
    + apply inherited_not_day in Ei as [Ei _]. exact (Ei H).
    + repeat (destruct H as [<-|H]; [discriminate E|]). destruct H.
Qed.

(** X1: for a day whose lower-case form is not a property name that the
    lookup object inherits ([constructor], [__proto__]), [normalizeDay]
    returns a canonical day or its argument unchanged, and is idempotent;
    when it recognises a day it gives the same answer for every spelling
    that differs only in letter case; for the two inherited names it
    returns the inherited value, which is neither a day nor the argument. *)
Theorem normalizeDay_stable (d : string) :
  (inheritedProperty (toLowerCase d) = None ->
   (In (normalizeDay d) DAYS \/ normalizeDay d = d)
   /\ normalizeDay (normalizeDay d) = normalizeDay d)
  /\ (forall d', toLowerCase d' = toLowerCase d ->
                 In (normalizeDay d) DAYS -> normalizeDay d' = normalizeDay d)
  /\ (forall v, inheritedProperty (toLowerCase d) = Some v ->
                normalizeDay d = v /\ ~ In v DAYS /\ v <> d).
Proof.
  split; [|split].
  - intros Hi.
    assert (H : In (normalizeDay d) DAYS \/ normalizeDay d = d).
    { destruct (normalizeDay_cases d) as [H|[H|H]]; [auto|auto|congruence]. }
    split; [exact H|]. destruct H as [H|H].
    + apply normalizeDay_fixes_days, H.
    + rewrite H. exact H.
  - intros d' Hl Hd. destruct (normalizeDay_hit d Hd) as (v & E & -> & Hv).
    unfold normalizeDay. rewrite Hl, E, Hv. reflexivity.
  - intros v Hi. split; [|split].
    + unfold normalizeDay. rewrite Hi.
      destruct (tableGet dayMappings (toLowerCase d)) as [w|] eqn:E;
        [|reflexivity].
      exfalso. revert E Hi. unfold inheritedProperty, dayMappings, tableGet.
      repeat match goal with
             | |- context [String.eqb ?a ?b] =>
                 destruct (String.eqb_spec a b)
             end; congruence.
    + apply (inherited_not_day _ _ Hi).
    + apply (inherited_not_argument _ _ Hi).
Qed.

Lemma periodNumber_cases (n : N) :
  (1 <=? n)%N && (n <=? 6)%N = true ->
  n = 1%N \/ n = 2%N \/ n = 3%N \/ n = 4%N \/ n = 5%N \/ n = 6%N.
Proof.
  intros H. apply andb_true_iff in H as [H1 H2].
  apply N.leb_le in H1, H2. lia.
Qed.

Lemma normalizePeriod_unfold (p : string) :
  normalizePeriod p
  = match matchDigits p with
    | Some ds =>
        if (1 <=? parseInt ds)%N && (parseInt ds <=? 6)%N
        then "P" +:+ digitString (parseInt ds) else p
    | None => p
    end.
Proof.
  unfold normalizePeriod. destruct (includes PERIODS p); reflexivity.
Qed.

(** X2: [normalizePeriod] gives a canonical period exactly when the first
    run of digits of its argument has a value from 1 to 6 (then it is the
    period of that number, whatever surrounds the digits); otherwise the
    argument comes back unchanged.  It is idempotent. *)
Theorem normalizePeriod_stable (p : string) :
  (In (normalizePeriod p) PERIODS
   <-> exists ds, matchDigits p = Some ds
                  /\ (1 <=? parseInt ds)%N && (parseInt ds <=? 6)%N = true)
  /\ (forall ds, matchDigits p = Some ds ->
        (1 <=? parseInt ds)%N && (parseInt ds <=? 6)%N = true ->
        normalizePeriod p = "P" +:+ digitString (parseInt ds))
  /\ (~ In (normalizePeriod p) PERIODS -> normalizePeriod p = p)
  /\ normalizePeriod (normalizePeriod p) = normalizePeriod p.
Proof.
  rewrite normalizePeriod_unfold.
  destruct (matchDigits p) as [ds|] eqn:Em.
  - destruct ((1 <=? parseInt ds)%N && (parseInt ds <=? 6)%N) eqn:Er.
    + apply periodNumber_cases in Er as Hn.
      assert (Hin : In ("P" +:+ digitString (parseInt ds)) PERIODS).
      { destruct Hn as [-> | [-> | [-> | [-> | [-> | ->]]]]]; simpl; auto 10. }
      split; [split; [eauto|intros _; exact Hin]|].
      split; [intros ds' [= <-] _; reflexivity|]. split; [tauto|].
      destruct Hn as [-> | [-> | [-> | [-> | [-> | ->]]]]]; reflexivity.
    + assert (Hout : ~ In p PERIODS).
      { intros H.
        repeat (destruct H as [<-|H];
                [injection Em as <-; discriminate Er|]).
        destruct H. }
      split; [split; [tauto|]|].
      { intros (ds' & [= <-] & H). congruence. }
      split; [intros ds' [= <-] H; congruence|]. split; [reflexivity|].
      rewrite normalizePeriod_unfold, Em, Er. reflexivity.
  - assert (Hout : ~ In p PERIODS).
    { intros H. repeat (destruct H as [<-|H]; [discriminate Em|]).
      destruct H. }
    split; [split; [tauto|intros (ds & H & _); discriminate H]|].
    split; [intros ds H; discriminate H|]. split; [reflexivity|].
    rewrite normalizePeriod_unfold, Em. reflexivity.
Qed.

(** ** Slot keys *)

Lemma slotKey_inj (d p d' p' : string) :
  includesChar "-" d' = false -> includesChar "-" p' = false ->
  slotKey d p = slotKey d' p' -> d = d' /\ p = p'.
Proof.
  unfold slotKey. revert d'.
  induction d as [|c d IH]; intros d' Hd' Hp' E.
  - destruct d' as [|c' d'].
    + injection E as E. auto.
    + injection E as <- _. simpl in Hd'. discriminate Hd'.
  - destruct d' as [|c' d'].
    + injection E as -> E. change (EmptyString +:+ p') with p' in E.
      subst p'. rewrite includesChar_app in Hp'. simpl in Hp'.
      rewrite orb_true_r in Hp'. discriminate Hp'.
    + injection E as -> E. simpl in Hd'.
      apply orb_false_iff in Hd' as [_ Hd'].
      destruct (IH d' Hd' Hp' E) as [-> ->]. auto.
Qed.

Lemma slotFromRow_key (r : TimetableRow) :
  normalizeDay (trim (day r)) <> EmptyString ->
  normalizePeriod (trim (replacePeriodPrefix (period r))) <> EmptyString ->
  slotFromRow r
  = slotKey (normalizeDay (trim (day r)))
      (normalizePeriod (trim (replacePeriodPrefix (period r)))).
Proof.
  unfold slotFromRow.
  destruct (normalizeDay (trim (day r))); [congruence|].
  destruct (normalizePeriod (trim (replacePeriodPrefix (period r))));
    [congruence|reflexivity].
Qed.

Lemma vocabulary_nonEmpty (v : list string) (x : string) :
  In x v -> ~ In EmptyString v -> x <> EmptyString.
Proof. intros H Hn ->. exact (Hn H). Qed.

Lemma vocabulary_no_dash (x : string) :
  In x DAYS \/ In x PERIODS -> includesChar "-" x = false.
Proof.
  intros [H|H]; repeat (destruct H as [<-|H]; [reflexivity|]); destruct H.
Qed.

(** X3: [slotFromRow] yields a key of the 30-slot grid exactly when the
    normalized day and the normalized period are both canonical. *)
Theorem slotFromRow_canonical_iff (r : TimetableRow) :
  In (slotFromRow r) canonicalSlots
  <-> In (normalizeDay (trim (day r))) DAYS
      /\ In (normalizePeriod (trim (replacePeriodPrefix (period r)))) PERIODS.
Proof.
  split.
  - intros H.
    assert (Hne : slotFromRow r <> EmptyString)
      by (apply nonEmpty_true, canonical_nonEmpty, H).
    assert (E := slotFromRow_key r).
    rewrite slotFromRow_empty_iff in Hne.
    rewrite E in H by tauto. clear E.
    unfold canonicalSlots in H. apply in_flat_map in H as (d & Hd & H).
    apply in_map_iff in H as (p & Hk & Hp).
    apply eq_sym, slotKey_inj in Hk as [-> ->];
      [auto | apply vocabulary_no_dash | apply vocabulary_no_dash]; auto.
  - intros [Hd Hp]. rewrite slotFromRow_key.
    + apply canonical_key; assumption.
    + apply (vocabulary_nonEmpty DAYS _ Hd). simpl. intuition discriminate.
    + apply (vocabulary_nonEmpty PERIODS _ Hp). simpl. intuition discriminate.
Qed.

(** ** Occupancy index: commit and query *)

Lemma trim_nonEmpty (x : string) :
  nonEmpty (trim x) = true -> nonEmpty x = true.
Proof. destruct x; [discriminate|reflexivity]. Qed.

Lemma addTrimmed_elem (x res : string) (set : gset string) :
  res ∈ addTrimmed x set
  <-> res ∈ set \/ (nonEmpty (trim x) = true /\ res = trim x).
Proof.
  unfold addTrimmed. destruct (nonEmpty (trim x)) eqn:E.
  - rewrite (trim_nonEmpty x E). simpl.
    rewrite elem_of_union, elem_of_singleton. intuition.
  - rewrite andb_false_r. intuition discriminate.
Qed.

Lemma setOf_addTrimmedAll (kind : ConflictType) (t r g : string)
    (sd : SlotData) :
  setOf kind (addTrimmedAll t r g sd)
  = addTrimmed (resourceArg kind t r g) (setOf kind sd).
Proof. destruct kind; reflexivity. Qed.

Lemma committed_addToSlot (s t r g : string) (occ : gmap string SlotData)
    (kind : ConflictType) (s' res : string) :
  committed (addToSlot s t r g occ) kind s' res = true
  <-> committed occ kind s' res = true
      \/ (s' = s /\ nonEmpty (trim (resourceArg kind t r g)) = true
          /\ res = trim (resourceArg kind t r g)).
Proof.
  unfold committed. rewrite addToSlot_insert, lookup_insert.
  case_decide as Hs.
  - subst s'. rewrite bool_decide_eq_true, setOf_addTrimmedAll.
    rewrite addTrimmed_elem.
    destruct (occ !! s) as [sd|]; simpl.
    + rewrite bool_decide_eq_true. intuition.
    + split; [intros [H|H]; [|auto]|intros [H|H]; [discriminate|tauto]].
      destruct kind; destruct (not_elem_of_empty (C:=gset string) _ H).
  - intuition congruence.
Qed.

Lemma unavailable_iff (s t r g : string) (occ : gmap string SlotData) :
  isSlotAvailable s t r g occ = false
  <-> exists kind, nonEmpty (resourceArg kind t r g) = true
                   /\ committed occ kind s (resourceArg kind t r g) = true.
Proof.
  unfold isSlotAvailable, committed.
  destruct (occ !! s) as [sd|].
  - split.
    + intros H.
      destruct (nonEmpty t && bool_decide (t ∈ teachers sd)) eqn:Et.
      { apply andb_true_iff in Et as [? ?]. exists TeacherConflict. auto. }
      destruct (nonEmpty r && bool_decide (r ∈ rooms sd)) eqn:Er.
      { apply andb_true_iff in Er as [? ?]. exists RoomConflict. auto. }
      destruct (nonEmpty g && bool_decide (g ∈ groups sd)) eqn:Eg.
      { apply andb_true_iff in Eg as [? ?]. exists GroupConflict. auto. }
      discriminate H.
    + intros ([| |] & Hn & Hc); simpl in *; rewrite Hn, Hc; simpl;
        rewrite ?andb_false_r; reflexivity.
  - split; [discriminate|intros (k & _ & H); discriminate H].
Qed.

(** X4: after [addToSlot] at a slot, [isSlotAvailable] at that slot is false
    for any request that names one of the committed identities (trimmed and
    non-empty); the answers for every other slot are unchanged; a slot that
    was unavailable for a request stays unavailable; and committing only
    blank identities changes no answer. *)
Theorem commit_then_query (s t r g : string) (occ : gmap string SlotData) :
  (forall kind t' r' g',
     nonEmpty (trim (resourceArg kind t r g)) = true ->
     resourceArg kind t' r' g' = trim (resourceArg kind t r g) ->
     isSlotAvailable s t' r' g' (addToSlot s t r g occ) = false)
  /\ (forall s' t' r' g',
        s' <> s ->
        isSlotAvailable s' t' r' g' (addToSlot s t r g occ)
        = isSlotAvailable s' t' r' g' occ)
  /\ (forall s' t' r' g',
        isSlotAvailable s' t' r' g' occ = false ->
        isSlotAvailable s' t' r' g' (addToSlot s t r g occ) = false)
  /\ (trim t = EmptyString -> trim r = EmptyString -> trim g = EmptyString ->
      forall s' t' r' g',
        isSlotAvailable s' t' r' g' (addToSlot s t r g occ)
        = isSlotAvailable s' t' r' g' occ).
Proof.
  split; [|split; [|split]].
  - intros kind t' r' g' Hne E. apply unavailable_iff. exists kind.
    rewrite E. split; [exact Hne|]. apply committed_addToSlot. auto.
  - intros s' t' r' g' Hs. unfold isSlotAvailable.
    rewrite addToSlot_insert, lookup_insert_ne by congruence. reflexivity.
  - intros s' t' r' g' H. apply unavailable_iff in H as (k & Hn & Hc).
    apply unavailable_iff. exists k. split; [exact Hn|].
    apply committed_addToSlot. auto.
  - intros Ht Hr Hg s' t' r' g'.
    destruct (isSlotAvailable s' t' r' g' occ) eqn:E.
    + destruct (isSlotAvailable s' t' r' g' (addToSlot s t r g occ)) eqn:E';
        [reflexivity|].
      apply unavailable_iff in E' as (k & Hn & Hc).
      apply committed_addToSlot in Hc as [Hc|(_ & Hc & _)].
      * assert (F : isSlotAvailable s' t' r' g' occ = false)
          by (apply unavailable_iff; eauto).
        congruence.
      * destruct k; simpl in Hc; rewrite ?Ht, ?Hr, ?Hg in Hc; discriminate.
    + apply unavailable_iff in E as (k & Hn & Hc).
      apply unavailable_iff. exists k. split; [exact Hn|].
      apply committed_addToSlot. auto.
Qed.

Lemma commit_then_query_witness :
  isSlotAvailable "Mon-P1" "Alice" EmptyString EmptyString
    (addToSlot "Mon-P1" " Alice " "R1" EmptyString ∅) = false.
Proof.
  destruct (commit_then_query "Mon-P1" " Alice " "R1" EmptyString ∅)
    as (H & _).
  apply (H TeacherConflict); reflexivity.
Defined.

(** ** The pass: what the index and the console say about the result *)

Lemma chosen_slot_available (r : TimetableRow) (occ : gmap string SlotData) :
  (availableFor r (fst (chooseSlot r occ)) occ = true
   /\ forall e, In e (snd (chooseSlot r occ)) -> isNoAlternative e = false)
  \/ (availableFor r (fst (chooseSlot r occ)) occ = false
      /\ fst (chooseSlot r occ) = slotFromRow r
      /\ snd (chooseSlot r occ)
         = [NoAlternative (subject r) (slotFromRow r)]).
Proof.
  destruct (chooseSlot_cases r occ)
    as [[Ha ->]|[(Ha & alt & Hr & _ & ->)|(Ha & _ & ->)]]; simpl.
  - left. split; [exact Ha|]. intros e [].
  - left. split.
    + apply relocation_sound in Hr as [_ Hr]. exact Hr.
    + intros e [<-|[]]. reflexivity.
  - right. auto.
Qed.

Lemma unavailable_for_iff (r : TimetableRow) (s : string)
    (occ : gmap string SlotData) :
  availableFor r s occ = false
  <-> exists kind, nonEmpty (rowResource kind r) = true
                   /\ committed occ kind s (rowResource kind r) = true.
Proof.
  unfold availableFor. rewrite unavailable_iff.
  split; intros (k & H); exists k; destruct k; exact H.
Qed.

Lemma rowResource_trimmed (kind : ConflictType) (r : TimetableRow) :
  trim (rowResource kind r) = rowResource kind r.
Proof. destruct kind; apply trim_idem. Qed.

Lemma resolveRow_indexMatches (st : PassState) (r : TimetableRow) :
  indexMatches st -> indexMatches (resolveRow st r).
Proof.
  intros I kind s res. rewrite resolveRow_commit. simpl.
  rewrite committed_addToSlot, (I kind s res).
  change (resourceArg kind (trim (orEmpty (teacher r)))
            (trim (orEmpty (room r))) (trim (orEmpty (group r))))
    with (resourceArg kind (rowResource TeacherConflict r)
            (rowResource RoomConflict r) (rowResource GroupConflict r)).
  replace (resourceArg kind (rowResource TeacherConflict r)
             (rowResource RoomConflict r) (rowResource GroupConflict r))
    with (rowResource kind r) by (destruct kind; reflexivity).
  rewrite rowResource_trimmed. split.
  - intros [(a & Ha & Hs & Hk & Hn)|(-> & Hn & ->)].
    + exists a. rewrite in_app_iff. auto.
    + eexists. rewrite in_app_iff. split; [right; left; reflexivity|].
      auto.
  - intros (a & Ha & Hs & Hk & Hn). apply in_app_or in Ha as [Ha|[<-|[]]].
    + left. eauto.
    + right. simpl in *. unfold resourceKey in Hk. simpl in Hk.
      subst. auto.
Qed.

Lemma nth_error_snoc (l : list Assignment) (x a : Assignment) (j : nat) :
  nth_error (l ++ [x]) j = Some a ->
  ((j < length l)%nat /\ nth_error l j = Some a)
  \/ (j = length l /\ a = x).
Proof.
  intros H. destruct (Nat.lt_ge_cases j (length l)) as [Hlt|Hge].
  - left. rewrite nth_error_app1 in H by exact Hlt. auto.
  - right. rewrite nth_error_app2 in H by exact Hge.
    destruct (j - length l)%nat as [|k] eqn:E; simpl in H.
    + injection H as <-. split; [lia|reflexivity].
    + destruct k; discriminate H.
Qed.

Lemma resolveRow_clashesWarned (st : PassState) (r : TimetableRow) :
  indexMatches st -> clashesWarned st -> clashesWarned (resolveRow st r).
Proof.
  intros I W i j a b Hij Ha Hb Hc.
  rewrite resolveRow_commit in *. simpl in *.
  apply nth_error_snoc in Hb as [[Hj Hb]|[Hj ->]].
  - apply nth_error_snoc in Ha as [[_ Ha]|[Hi _]]; [|lia].
    destruct (W i j a b Hij Ha Hb Hc) as [E Hin].
    split; [exact E|]. apply in_or_app. left. exact Hin.
  - apply nth_error_snoc in Ha as [[_ Ha]|[Hi _]]; [|lia].
    destruct Hc as (Hs & kind & Hk & Hn). simpl in Hs.
    assert (Hu : availableFor r (fst (chooseSlot r (st_occupied st)))
                   (st_occupied st) = false).
    { apply unavailable_for_iff. exists kind.
      unfold resourceKey in Hk, Hn. simpl in Hk.
      rewrite <- Hk. split; [exact Hn|].
      apply I. exists a. split; [eapply nth_error_In, Ha|]. auto. }
    destruct (chosen_slot_available r (st_occupied st))
      as [[Hav _]|(_ & E & Ev)]; [congruence|].
    simpl. split; [exact E|]. apply in_or_app. right. rewrite Ev.
    left. reflexivity.
Qed.

Lemma resolveRow_warningsClash (st : PassState) (r : TimetableRow) :
  indexMatches st -> warningsClash st -> warningsClash (resolveRow st r).
Proof.
  intros I W e He Hno. rewrite resolveRow_commit in *. simpl in *.
  apply in_app_or in He as [He|He].
  - destruct (W e He Hno) as (i & j & a & b & Hij & Ha & Hb & Hc).
    exists i, j, a, b. split; [exact Hij|].
    rewrite !nth_error_app1
      by (apply nth_error_Some; congruence).
    auto.
  - destruct (chosen_slot_available r (st_occupied st))
      as [[_ Hev]|(Hu & E & Ev)].
    { rewrite (Hev e He) in Hno. discriminate Hno. }
    apply unavailable_for_iff in Hu as (kind & Hn & Hc).
    apply I in Hc as (a & Ha & Hs & Hk & _).
    apply In_nth_error in Ha as (i & Ha).
    exists i, (length (st_assignments st)), a,
      (mkAssignment r (fst (chooseSlot r (st_occupied st)))).
    assert (Hi : (i < length (st_assignments st))%nat)
      by (apply nth_error_Some; congruence).
    split; [exact Hi|]. split; [rewrite nth_error_app1; assumption|].
    split.
    { rewrite nth_error_app2, Nat.sub_diag by lia. reflexivity. }
    split; [exact Hs|]. exists kind. split; [exact Hk|].
    rewrite Hk. exact Hn.
Qed.

Lemma resolveRows_observed (rows : list TimetableRow) (st : PassState) :
  indexMatches st -> clashesWarned st -> warningsClash st ->
  indexMatches (resolveRows st rows)
  /\ clashesWarned (resolveRows st rows)
  /\ warningsClash (resolveRows st rows).
Proof.
  revert st. induction rows as [|r rows IH]; intros st I C W; [auto|].
  simpl. apply IH.
  - apply resolveRow_indexMatches, I.
  - apply resolveRow_clashesWarned; assumption.
  - apply resolveRow_warningsClash; assumption.
Qed.

Lemma merge_observed (rows : list TimetableRow) :
  indexMatches (mergeState rows)
  /\ clashesWarned (mergeState rows)
  /\ warningsClash (mergeState rows).
Proof.
  apply resolveRows_observed.
  - intros kind s res. simpl. split; [discriminate|].
    intros (a & [] & _).
  - intros i j a b _ Ha. destruct i; discriminate Ha.
  - intros e [].
Qed.

(** X5: at the end of the pass the occupancy index holds an identity at a
    slot exactly when some Assignment of that slot holds it (trimmed and
    non-empty) for that kind of resource: nothing is missing and nothing is
    recorded that no row brought. *)
Theorem index_reflects_assignments (rows : list TimetableRow)
    (kind : ConflictType) (s res : string) :
  committed (st_occupied (mergeState rows)) kind s res = true
  <-> exists a, In a (assignments (mergeAndResolve rows))
                /\ assignedSlot a = s
                /\ resourceKey kind a = res /\ nonEmpty res = true.
Proof. apply (proj1 (merge_observed rows)). Qed.

(** X6: a row that was relocated, or that found its original slot free,
    never shares a slot and a resource with an earlier row: in every clash
    the later Assignment kept its original slot after an exhausted search,
    which the console records. *)
Theorem clash_only_after_exhausted_search (rows : list TimetableRow)
    (i j : nat) (a b : Assignment) :
  (i < j)%nat ->
  nth_error (assignments (mergeAndResolve rows)) i = Some a ->
  nth_error (assignments (mergeAndResolve rows)) j = Some b ->
  clashes a b ->
  assignedSlot b = slotFromRow (row b)
  /\ In (NoAlternative (subject (row b)) (slotFromRow (row b)))
        (st_console (mergeState rows)).
Proof. apply (proj1 (proj2 (merge_observed rows))). Qed.

Lemma clash_only_after_exhausted_search_witness :
  In (NoAlternative None "Mon-P1") (st_console (mergeState (repeat rowT 31))).
Proof.
  destruct (clash_only_after_exhausted_search (repeat rowT 31) 0 30
              (mkAssignment rowT "Mon-P1") (mkAssignment rowT "Mon-P1"))
    as [_ H].
  - lia.
  - vm_compute. reflexivity.
  - vm_compute. reflexivity.
  - split; [reflexivity|]. exists TeacherConflict. split; reflexivity.
  - exact H.
Defined.

Lemma filter_two_inv (f : Assignment -> bool) (l : list Assignment) :
  (1 < length (List.filter f l))%nat ->
  exists i j a b,
    (i < j)%nat /\ nth_error l i = Some a /\ nth_error l j = Some b
    /\ f a = true /\ f b = true.
Proof.
  induction l as [|x l IH]; simpl; [lia|].
  destruct (f x) eqn:Ex; simpl; intros H.
  - destruct (List.filter f l) as [|b t] eqn:Ef; [simpl in H; lia|].
    assert (Hb : In b (List.filter f l)) by (rewrite Ef; left; reflexivity).
    apply filter_In in Hb as [Hb Fb].
    apply In_nth_error in Hb as (j & Hj).
    exists 0%nat, (S j), x, b. repeat split; auto. lia.
  - destruct (IH H) as (i & j & a & b & Hij & Ha & Hb & Fa & Fb).
    exists (S i), (S j), a, b. repeat split; auto. lia.
Qed.

(** X7: the pass reports no Conflict exactly when no relocation search was
    exhausted, that is when the console carries no warning. *)
Theorem no_conflict_iff_no_warning (rows : list TimetableRow) :
  conflicts (mergeAndResolve rows) = []
  <-> forallb (fun e => negb (isNoAlternative e))
        (st_console (mergeState rows)) = true.
Proof.
  destruct (merge_observed rows) as (_ & C & W).
  rewrite forallb_forall. split.
  - intros Hc e He. destruct (isNoAlternative e) eqn:E; [|reflexivity].
    exfalso. destruct (W e He E) as (i & j & a & b & Hij & Ha & Hb & Hcl).
    destruct Hcl as (Hs & kind & Hk & Hn).
    destruct (assigned_slot_ok rows a (nth_error_In _ _ Ha)) as [_ Hsa].
    destruct (shared_resource_reported (assignments (mergeAndResolve rows))
                kind i j a b ltac:(lia) Ha Hb Hsa Hs Hn Hk) as (c & Hin & _).
    change (detectConflicts (assignments (mergeAndResolve rows)))
      with (conflicts (mergeAndResolve rows)) in Hin.
    rewrite Hc in Hin. destruct Hin.
  - intros Hw. destruct (conflicts (mergeAndResolve rows)) as [|c cs] eqn:E;
      [reflexivity|].
    exfalso.
    assert (Hc : In c (detectConflicts (assignments (mergeAndResolve rows)))).
    { change (In c (conflicts (mergeAndResolve rows))). rewrite E. left.
      reflexivity. }
    apply detectConflicts_spec in Hc as (_ & Hr & Hlen & Ec).
    rewrite Ec, filter_filter_and in Hlen.
    apply filter_two_inv in Hlen as (i & j & a & b & Hij & Ha & Hb & Fa & Fb).
    apply andb_true_iff in Fa as [Fa1 Fa2]. apply andb_true_iff in Fb as [Fb1 Fb2].
    unfold sameKey in *. apply String.eqb_eq in Fa1, Fa2, Fb1, Fb2.
    destruct (C i j a b Hij Ha Hb) as [_ Hin].
    { split; [congruence|]. exists (type c). split; [congruence|].
      rewrite Fa2. exact Hr. }
    apply Hw in Hin. discriminate Hin.
Qed.

(** ** Per-source groupings *)

Lemma sourceKey_nonEmpty (a : Assignment) : nonEmpty (sourceKey a) = true.
Proof.
  unfold sourceKey. destruct (truthy (sourceFile (row a))) eqn:E;
    [exact E|reflexivity].
Qed.

Lemma resolveRows_separated (rows : list TimetableRow) (st : PassState) :
  st_separated st = groupByKey sourceKey (st_assignments st) ->
  st_separated (resolveRows st rows)
  = groupByKey sourceKey (st_assignments (resolveRows st rows)).
Proof.
  revert st. induction rows as [|r rows IH]; intros st H; [exact H|].
  simpl. apply IH. rewrite resolveRow_commit. simpl.
  rewrite groupByKey_snoc, sourceKey_nonEmpty, H. reflexivity.
Qed.

(** X8: the per-source groupings are the Assignments grouped by
    [sourceFile] (or "unknown"): each source that has a valid row appears
    once, with exactly its own Assignments in input order, and no source
    appears with an empty list. *)
Theorem per_source_grouping (rows : list TimetableRow) :
  let res := mergeAndResolve rows in
  List.NoDup (map fst (separatedTimetables res))
  /\ (forall k es,
        In (k, es) (separatedTimetables res)
        <-> es = List.filter (sameKey sourceKey k) (assignments res)
            /\ es <> [])
  /\ (forall a, In a (assignments res) ->
        exists es, In (sourceKey a, es) (separatedTimetables res)
                   /\ In a es).
Proof.
  intros res.
  assert (E : separatedTimetables res
              = groupByKey sourceKey (assignments res)).
  { apply resolveRows_separated. reflexivity. }
  rewrite E. split; [apply groupByKey_NoDup|]. split.
  - intros k es. rewrite groupByKey_In. split; [tauto|].
    intros [-> Hne]. split; [|auto].
    destruct (List.filter (sameKey sourceKey k) (assignments res))
      as [|a t] eqn:Ef; [congruence|].
    assert (Ha : In a (List.filter (sameKey sourceKey k) (assignments res)))
      by (rewrite Ef; left; reflexivity).
    apply filter_In in Ha as [_ Ha]. apply String.eqb_eq in Ha.
    rewrite <- Ha. apply sourceKey_nonEmpty.
  - intros a Ha.
    assert (Hin : In a (List.filter (sameKey sourceKey (sourceKey a))
                          (assignments res))).
    { apply filter_In. split; [exact Ha|apply String.eqb_refl]. }
    eexists. split; [|exact Hin]. apply groupByKey_In.
    split; [apply sourceKey_nonEmpty|]. split; [reflexivity|].
    intros H0. rewrite H0 in Hin. destruct Hin.
Qed.

(** ** The conflict report, exactly *)

Section FlatMapKeys.

Context {V C : Type}.
Variable f : string * V -> list C.
Variable proj : C -> string.
Hypothesis f_key : forall kv c, In c (f kv) -> proj c = fst kv.

Lemma NoDup_flat_map_keys (m : list (string * V)) :
  List.NoDup (map fst m) ->
  (forall kv, In kv m -> List.NoDup (f kv)) ->
  List.NoDup (flat_map f m).
Proof.
  induction m as [|kv m IH]; simpl; intros Hk Hf; [constructor|].
  inversion Hk as [|? ? Hkv Hm]; subst.
  apply List.NoDup_app; [apply Hf; auto | apply IH; auto |].
  intros c Hc Hc'. apply in_flat_map in Hc' as (kv' & Hin & Hc').
  apply Hkv. rewrite <- (f_key kv c Hc), (f_key kv' c Hc').
  apply in_map, Hin.
Qed.

End FlatMapKeys.

Lemma conflictsOn_NoDup (ty : ConflictType) (key : Assignment -> string)
    (s : string) (sa : list Assignment) :
  List.NoDup (conflictsOn ty key s sa).
Proof.
  unfold conflictsOn.
  apply (NoDup_flat_map_keys _ resource).
  - intros [res es] c. simpl. destruct (1 <? length es)%nat; [|intros []].
    intros [<-|[]]. reflexivity.
  - apply groupByKey_NoDup.
  - intros [res es] _. destruct (1 <? length es)%nat; repeat constructor.
    simpl. tauto.
Qed.

Lemma conflictsOn_type (ty : ConflictType) (key : Assignment -> string)
    (s : string) (sa : list Assignment) (c : Conflict) :
  In c (conflictsOn ty key s sa) -> type c = ty /\ slot c = s.
Proof.
  intros H. apply conflictsOn_In in H as (res & es & _ & _ & ->). auto.
Qed.

(** X9: a Conflict is reported exactly for a kind, a non-empty slot and a
    non-empty identity that two or more Assignments of that slot share; it
    carries all of them, in input order; and the report never lists the
    same Conflict twice. *)
Theorem conflict_report_exact (l : list Assignment) :
  (forall c,
     In c (detectConflicts l)
     <-> nonEmpty (slot c) = true /\ nonEmpty (resource c) = true
         /\ (1 < length (conflictingEntries c))%nat
         /\ conflictingEntries c
            = List.filter (sameKey (resourceKey (type c)) (resource c))
                (List.filter (sameKey assignedSlot (slot c)) l))
  /\ List.NoDup (detectConflicts l).
Proof.
  split; [intros c; apply detectConflicts_spec|].
  unfold detectConflicts. apply (NoDup_flat_map_keys _ slot).
  - intros [s sa] c. simpl. destruct (length sa <=? 1)%nat; [intros []|].
    rewrite !in_app_iff.
    intros [H|[H|H]]; apply conflictsOn_type in H; tauto.
  - apply groupByKey_NoDup.
  - intros [s sa] _. destruct (length sa <=? 1)%nat; [constructor|].
    apply List.NoDup_app; [apply conflictsOn_NoDup| |].
    + apply List.NoDup_app;
        [apply conflictsOn_NoDup|apply conflictsOn_NoDup|].
      intros c H1 H2. apply conflictsOn_type in H1 as [H1 _].
      apply conflictsOn_type in H2 as [H2 _]. congruence.
    + intros c H1 H2. apply conflictsOn_type in H1 as [H1 _].
      apply in_app_or in H2 as [H2|H2];
        apply conflictsOn_type in H2 as [H2 _]; congruence.
Qed.

(** ** The search from any slot *)

(** X10: whatever slot the search is started from, a slot it returns is a
    key of the grid, is available for the given resources, is the first
    such candidate, and is never the slot the search started from; the
    search returns nothing exactly when no candidate is available. *)
Theorem search_result_sound (cur teacher room group : string)
    (occ : gmap string SlotData) :
  let test := fun s => isSlotAvailable s teacher room group occ in
  (forall alt,
     findNextAvailableSlot cur teacher room group occ = Some alt ->
     In alt canonicalSlots /\ test alt = true /\ alt <> cur
     /\ exists before after,
          candidateOrder cur = before ++ alt :: after
          /\ forall x, In x before -> test x = false)
  /\ (findNextAvailableSlot cur teacher room group occ = None
      <-> forall s, In s (candidateOrder cur) -> test s = false).
Proof.
  intros test.
  assert (E : findNextAvailableSlot cur teacher room group occ
              = List.find test (candidateOrder cur)).
  { rewrite probes_result, search_candidateOrder. reflexivity. }
  rewrite E. split; [|apply find_none_iff].
  intros alt H.
  destruct (find_first test _ alt H) as (b & a & Ho & Hb & Ht & _).
  assert (Hin : In alt (candidateOrder cur))
    by (rewrite Ho; apply in_elt).
  assert (Hc := candidateOrder_canonical cur alt Hin).
  split; [exact Hc|]. split; [exact Ht|]. split; [|eauto].
  intros ->. apply canonical_cell in Hc as (d & p & Hd & Hp & ->).
  rewrite candidateOrder_grid in Hin by assumption.
  apply searchOrder_mem in Hin; tauto.
Qed.

Lemma search_result_sound_witness :
  In "Mon-P2" canonicalSlots /\ "Mon-P2" <> "Mon-P1-P3".
Proof.
  destruct (search_result_sound "Mon-P1-P3" "T" EmptyString EmptyString ∅)
    as [H _].
  destruct (H "Mon-P2" eq_refl) as (H1 & _ & H2 & _). auto.
Defined.

(** ** The timetable view *)

Section Upsert.

Context {K V : Type}.
Variable eqb : K -> K -> bool.
Hypothesis eqb_spec : forall x y, eqb x y = true <-> x = y.

Lemma eqb_same (x : K) : eqb x x = true.
Proof. apply eqb_spec. reflexivity. Qed.

Lemma assocGet_upsert (k k' : K) (init : V) (f : V -> V) (m : list (K * V)) :
  assocGet eqb k' (upsert eqb k init f m)
  = if eqb k k' then Some (f (default init (assocGet eqb k m)))
    else assocGet eqb k' m.
Proof.
  induction m as [|[k0 v] m IH]; simpl.
  - destruct (eqb k k'); reflexivity.
  - destruct (eqb k0 k) eqn:E0; simpl.
    + apply eqb_spec in E0. subst k0. destruct (eqb k k'); reflexivity.
    + rewrite IH. destruct (eqb k k') eqn:E1; [|reflexivity].
      apply eqb_spec in E1. subst k'. rewrite E0. reflexivity.
Qed.

End Upsert.

Lemma optionEqb_spec (x y : option string) : optionEqb x y = true <-> x = y.
Proof.
  destruct x as [a|], y as [b|]; simpl; try (split; congruence).
  rewrite String.eqb_eq. split; congruence.
Qed.

Lemma getTimetableView_snoc (l : list Assignment) (a : Assignment) :
  getTimetableView (l ++ [a])
  = if isEmpty (assignedSlot a) then getTimetableView l
    else upsert String.eqb (dayComponent (assignedSlot a)) []
           (upsert optionEqb (periodComponent (assignedSlot a)) []
              (fun cell => cell ++ [a]))
           (getTimetableView l).
Proof. unfold getTimetableView. rewrite fold_left_app. reflexivity. Qed.

Lemma viewCell_filter (l : list Assignment) (d p : string) :
  viewCell (getTimetableView l) d p = List.filter (inCell d p) l.
Proof.
  induction l as [|a l IH] using rev_ind; [reflexivity|].
  rewrite getTimetableView_snoc, List.filter_app. simpl.
  unfold inCell at 2. unfold nonEmpty.
  destruct (isEmpty (assignedSlot a)); simpl.
  { rewrite app_nil_r. exact IH. }
  rewrite <- IH. unfold viewCell.
  rewrite (assocGet_upsert String.eqb String.eqb_eq).
  destruct (String.eqb (dayComponent (assignedSlot a)) d) eqn:Ed; simpl.
  - apply String.eqb_eq in Ed. rewrite <- Ed.
    rewrite (assocGet_upsert optionEqb optionEqb_spec).
    destruct (optionEqb (periodComponent (assignedSlot a)) (Some p)) eqn:Ep.
    + apply optionEqb_spec in Ep. rewrite Ep.
      destruct (assocGet String.eqb _ _) as [dm|]; simpl;
        [destruct (assocGet optionEqb _ dm)|]; reflexivity.
    + rewrite app_nil_r.
      destruct (assocGet String.eqb _ _) as [dm|]; reflexivity.
  - rewrite app_nil_r. reflexivity.
Qed.

Lemma gridSlot_components (d p : nat) :
  (d < 5)%nat -> (p < 6)%nat ->
  dayComponent (gridSlot d p) = at_ DAYS d
  /\ periodComponent (gridSlot d p) = Some (at_ PERIODS p).
Proof. intros Hd Hp. each_cell d p; split; reflexivity. Qed.

Lemma at_vocabulary (v : list string) (i : nat) :
  (i < length v)%nat -> In (at_ v i) v.
Proof. intros H. apply nth_In, H. Qed.

Lemma viewEntry_snoc (l : list Assignment) (a : Assignment) (d : string)
    (pk : option string) :
  viewEntry (getTimetableView (l ++ [a])) d pk
  = if inEntry d pk a
    then Some (default [] (viewEntry (getTimetableView l) d pk) ++ [a])
    else viewEntry (getTimetableView l) d pk.
Proof.
  rewrite getTimetableView_snoc. unfold inEntry, nonEmpty.
  destruct (isEmpty (assignedSlot a)); [reflexivity|]. simpl.
  unfold viewEntry.
  rewrite (assocGet_upsert String.eqb String.eqb_eq).
  destruct (String.eqb (dayComponent (assignedSlot a)) d) eqn:Ed; simpl;
    [|reflexivity].
  apply String.eqb_eq in Ed. rewrite <- Ed.
  rewrite (assocGet_upsert optionEqb optionEqb_spec).
  destruct (optionEqb (periodComponent (assignedSlot a)) pk) eqn:Ep.
  - apply optionEqb_spec in Ep. rewrite Ep.
    destruct (assocGet String.eqb _ _) as [dm|]; reflexivity.
  - destruct (assocGet String.eqb _ _) as [dm|]; reflexivity.
Qed.

Lemma viewEntry_filter (l : list Assignment) (d : string)
    (pk : option string) :
  viewEntry (getTimetableView l) d pk
  = match List.filter (inEntry d pk) l with
    | [] => None
    | cell => Some cell
    end.
Proof.
  induction l as [|a l IH] using rev_ind; [reflexivity|].
  rewrite viewEntry_snoc, List.filter_app, IH. simpl.
  destruct (inEntry d pk a).
  - destruct (List.filter (inEntry d pk) l); reflexivity.
  - rewrite app_nil_r. reflexivity.
Qed.

Lemma viewEntry_members (l : list Assignment) (d : string)
    (pk : option string) (cell : list Assignment) (a : Assignment) :
  viewEntry (getTimetableView l) d pk = Some cell ->
  (In a cell <-> In a l /\ inEntry d pk a = true).
Proof.
  rewrite viewEntry_filter. rewrite <- filter_In.
  destruct (List.filter (inEntry d pk) l); [discriminate|].
  intros [= <-]. reflexivity.
Qed.

Lemma beforeFirst_absent (c : ascii) (s : string) :
  includesChar c s = false -> beforeFirst c s = s.
Proof.
  induction s as [|x s IH]; simpl; [reflexivity|].
  intros H. apply orb_false_iff in H as [-> H]. rewrite (IH H). reflexivity.
Qed.

Lemma inEntry_own (a : Assignment) :
  assignedSlot a <> EmptyString ->
  inEntry (dayComponent (assignedSlot a)) (periodComponent (assignedSlot a)) a
  = true.
Proof.
  intros H. unfold inEntry. apply nonEmpty_true in H. rewrite H.
  rewrite String.eqb_refl. simpl. apply optionEqb_spec. reflexivity.
Qed.

Lemma inEntry_true (d : string) (pk : option string) (a : Assignment) :
  inEntry d pk a = true
  <-> assignedSlot a <> EmptyString
      /\ dayComponent (assignedSlot a) = d
      /\ periodComponent (assignedSlot a) = pk.
Proof.
  unfold inEntry.
  rewrite !andb_true_iff, nonEmpty_true, String.eqb_eq, optionEqb_spec.
  tauto.
Qed.

(** X11: the timetable view has an entry at a day key and a period key, a
    string or [undefined], exactly when some assignment has a non-empty slot
    whose first two dash-separated components are that day and that period,
    the second one being [undefined] for a slot without dash, and the entry
    then holds these assignments in input order.  So every assignment with a
    non-empty slot is in the entry of its own two components and in no
    other; one whose slot has no dash is stored under its whole slot as day
    key and the period key [undefined], hence in no cell that a day and a
    period string address; an assignment without slot is in no entry.  When
    every slot is a key of the grid, the cell of a grid key holds exactly
    the assignments of that slot. *)
Theorem view_cell_contents (l : list Assignment) (day : string)
    (period : option string) :
  let view := getTimetableView l in
  viewEntry view day period
  = match List.filter (inEntry day period) l with
    | [] => None
    | cell => Some cell
    end
  /\ (forall p,
        viewCell view day p = default [] (viewEntry view day (Some p))
        /\ viewCell view day p = List.filter (inCell day p) l)
  /\ (forall a d pk cell,
        viewEntry view d pk = Some cell -> In a cell ->
        In a l /\ assignedSlot a <> EmptyString
        /\ d = dayComponent (assignedSlot a)
        /\ pk = periodComponent (assignedSlot a))
  /\ (forall a,
        In a l -> assignedSlot a <> EmptyString ->
        exists cell,
          viewEntry view (dayComponent (assignedSlot a))
            (periodComponent (assignedSlot a)) = Some cell
          /\ In a cell)
  /\ (forall a,
        In a l -> assignedSlot a <> EmptyString ->
        includesChar "-" (assignedSlot a) = false ->
        dayComponent (assignedSlot a) = assignedSlot a
        /\ periodComponent (assignedSlot a) = None
        /\ (exists cell,
              viewEntry view (assignedSlot a) None = Some cell /\ In a cell)
        /\ forall d p, ~ In a (viewCell view d p))
  /\ (forall a p,
        In a (viewCell view day p) ->
        In a l /\ assignedSlot a <> EmptyString
        /\ includesChar "-" (assignedSlot a) = true)
  /\ ((forall a, In a l -> In (assignedSlot a) canonicalSlots) ->
      forall p, In day DAYS -> In p PERIODS ->
      viewCell view day p
      = List.filter (sameKey assignedSlot (slotKey day p)) l).
Proof.
  intros view. subst view.
  assert (Hown : forall a, In a l -> assignedSlot a <> EmptyString ->
            exists cell,
              viewEntry (getTimetableView l) (dayComponent (assignedSlot a))
                (periodComponent (assignedSlot a)) = Some cell
              /\ In a cell).
  { intros a Ha Hne.
    assert (Hin : In a (List.filter
                         (inEntry (dayComponent (assignedSlot a))
                            (periodComponent (assignedSlot a))) l)).
    { apply filter_In. split; [exact Ha|apply inEntry_own, Hne]. }
    rewrite viewEntry_filter.
    destruct (List.filter _ l) as [|x cell] eqn:E; [destruct Hin|].
    exists (x :: cell). split; [reflexivity|exact Hin]. }
  assert (Hcell : forall d p a, In a (viewCell (getTimetableView l) d p) ->
            In a l /\ assignedSlot a <> EmptyString
            /\ periodComponent (assignedSlot a) = Some p).
  { intros d p a. rewrite viewCell_filter, filter_In.
    change (inCell d p a) with (inEntry d (Some p) a).
    rewrite inEntry_true. tauto. }
  split; [apply viewEntry_filter|]. split; [|split; [|split; [|split;
    [|split]]]].
  - intros p. split; [|apply viewCell_filter].
    unfold viewCell, viewEntry.
    destruct (assocGet String.eqb day _) as [dm|]; [|reflexivity].
    destruct (assocGet optionEqb (Some p) dm); reflexivity.
  - intros a d pk cell Hc Ha.
    apply (viewEntry_members l d pk cell a Hc) in Ha as [Ha Hin].
    apply inEntry_true in Hin as (Hne & <- & <-). auto.
  - exact Hown.
  - intros a Ha Hne Hdash.
    assert (Hp : periodComponent (assignedSlot a) = None).
    { rewrite periodComponent_text, Hdash. reflexivity. }
    assert (Hd : dayComponent (assignedSlot a) = assignedSlot a).
    { rewrite dayComponent_beforeFirst. apply beforeFirst_absent, Hdash. }
    split; [exact Hd|]. split; [exact Hp|]. split.
    + destruct (Hown a Ha Hne) as (cell & Hc & Hin).
      rewrite Hd, Hp in Hc. eauto.
    + intros d p Hin. apply Hcell in Hin as (_ & _ & Hsome). congruence.
  - intros a p Hin. apply Hcell in Hin as (Ha & Hne & Hp).
    split; [exact Ha|]. split; [exact Hne|].
    rewrite periodComponent_text in Hp.
    destruct (includesChar "-" (assignedSlot a)); [reflexivity|discriminate].
  - intros Hall p Hd Hp. rewrite viewCell_filter.
    apply filter_ext_in. intros a Ha.
    destruct (canonical_cell _ (Hall a Ha)) as (d' & p' & Hd' & Hp' & E).
    unfold inCell, sameKey. rewrite E.
    destruct (gridSlot_components d' p' Hd' Hp') as [-> ->].
    rewrite (slotKey_nonEmpty (at_ DAYS d') (at_ PERIODS p')
             : nonEmpty (gridSlot d' p') = true).
    simpl.
    destruct (String.eqb_spec (gridSlot d' p') (slotKey day p))
      as [Ek|Ek].
    + apply slotKey_inj in Ek as [-> ->];
        [|apply vocabulary_no_dash; auto..].
      rewrite !String.eqb_refl. reflexivity.
    + apply andb_false_iff.
      destruct (String.eqb_spec (at_ DAYS d') day) as [Ed|Ed]; [|auto].
      destruct (String.eqb_spec (at_ PERIODS p') p) as [Ep|Ep];
        [|auto].
      exfalso. apply Ek. unfold gridSlot. congruence.
Qed.

Lemma view_cell_contents_witness :
  viewEntry
    (getTimetableView [mkAssignment rowT "Tue-P3"; mkAssignment rowT "Holiday"])
    "Holiday" None
  = Some [mkAssignment rowT "Holiday"]
  /\ viewCell
       (getTimetableView
          [mkAssignment rowT "Tue-P3"; mkAssignment rowT "Tue-P4"])
       "Tue" "P3"
     = [mkAssignment rowT "Tue-P3"].
Proof.
  split.
  - destruct (view_cell_contents
                [mkAssignment rowT "Tue-P3"; mkAssignment rowT "Holiday"]
                "Holiday" None) as (H & _).
    rewrite H. reflexivity.
  - destruct (view_cell_contents
                [mkAssignment rowT "Tue-P3"; mkAssignment rowT "Tue-P4"]
                "Tue" None) as (_ & _ & _ & _ & _ & _ & H).
    rewrite H; [reflexivity| |simpl; auto|simpl; auto].
    intros a [<-|[<-|[]]]; simpl; auto 20.
Defined.

(** ** The rendering of the view *)

Lemma length_append (a b : string) :
  String.length (a +:+ b) = (String.length a + String.length b)%nat.
Proof. induction a as [|c a IH]; simpl; [reflexivity|]. rewrite IH. reflexivity. Qed.

Lemma length_repeatChar (c : ascii) (n : nat) :
  String.length (repeatChar c n) = n.
Proof. induction n as [|n IH]; simpl; [reflexivity|]. rewrite IH. reflexivity. Qed.

Lemma length_padEnd (n : nat) (s : string) :
  String.length (padEnd n s) = Nat.max n (String.length s).
Proof. unfold padEnd. rewrite length_append, length_repeatChar. lia. Qed.

Lemma length_substring_le (m : nat) (s : string) :
  (String.length (substring 0 m s) <= m)%nat.
Proof.
  revert s. induction m as [|m IH]; intros [|c s]; simpl; try lia.
  specialize (IH s). lia.
Qed.

Lemma substring_short (m : nat) (s : string) :
  (String.length s <= m)%nat -> substring 0 m s = s.
Proof.
  revert s. induction m as [|m IH]; intros [|c s]; simpl; intros H;
    try reflexivity; try lia.
  rewrite IH by lia. reflexivity.
Qed.

Lemma length_cell (content : string) :
  String.length (padEnd 15 (substring 0 14 content)) = 15%nat.
Proof.
  rewrite length_padEnd. pose proof (length_substring_le 14 content). lia.
Qed.

Section FoldAppend.

Context {A : Type}.
Variable piece : string -> A -> string.
Variable width : nat.

Lemma length_fold_append (l : list A) (out : string) :
  (forall o x, In x l ->
     String.length (piece o x) = (String.length o + width)%nat) ->
  String.length (fold_left piece l out)
  = (String.length out + width * length l)%nat.
Proof.
  revert out. induction l as [|x l IH]; intros out H; simpl; [lia|].
  rewrite IH by (intros; apply H; right; assumption).
  rewrite H by (left; reflexivity). lia.
Qed.

End FoldAppend.

(** X12: the rendering has a fixed layout: whatever the assignments, every
    cell takes 15 characters (a longer text is cut to 14) and the whole text
    is 785 characters long: a title, a rule, a header line, a rule and five
    day lines of 100 characters each. *)
Theorem display_fixed_layout (l : list Assignment) :
  String.length (displayTimetable l) = 785%nat
  /\ (forall cell, String.length (padEnd 15 (substring 0 14 (cellContent cell)))
                   = 15%nat)
  /\ (forall cell, (String.length (cellContent cell) <= 14)%nat ->
        padEnd 15 (substring 0 14 (cellContent cell))
        = padEnd 15 (cellContent cell))
  /\ cellContent [] = "-".
Proof.
  split; [|split; [intros; apply length_cell|split; [|reflexivity]]].
  - unfold displayTimetable.
    rewrite (length_fold_append _ 101).
    + rewrite !length_append.
      rewrite (length_fold_append _ 15).
      * rewrite !length_append, !length_repeatChar. reflexivity.
      * intros o x Hx. rewrite length_append, length_padEnd. f_equal.
        repeat (destruct Hx as [<-|Hx]; [reflexivity|]). destruct Hx.
    + intros o x Hx. rewrite length_append.
      rewrite (length_fold_append _ 15).
      * rewrite length_append, length_padEnd.
        assert (E : Nat.max 10 (String.length x) = 10%nat).
        { repeat (destruct Hx as [<-|Hx]; [reflexivity|]). destruct Hx. }
        rewrite E. simpl. lia.
      * intros o' p _. rewrite length_append, length_cell. reflexivity.
  - intros cell H. rewrite substring_short by exact H. reflexivity.
Qed.

(** ** Parsers *)

Lemma firstTruthy_nothing (raw : gmap string string) (keys : list string) :
  (forall k, In k keys -> givesNothing raw k) ->
  firstTruthy raw keys = EmptyString.
Proof.
  induction keys as [|k keys IH]; simpl; intros H; [reflexivity|].
  destruct (H k (or_introl eq_refl)) as [-> | ->]; simpl; apply IH; auto.
Qed.

Lemma firstTruthy_first (raw : gmap string string)
    (before after : list string) (k v : string) :
  (forall k', In k' before -> givesNothing raw k') ->
  raw !! k = Some v -> nonEmpty v = true ->
  firstTruthy raw (before ++ k :: after) = v.
Proof.
  induction before as [|k0 before IH]; simpl; intros Hb Hk Hv.
  - rewrite Hk, Hv. reflexivity.
  - destruct (Hb k0 (or_introl eq_refl)) as [-> | ->]; simpl; apply IH; auto.
Qed.

Lemma trimmed_truthy (x : string) :
  truthy (Some (trim x)) = nonEmpty (trim (orEmpty (Some (trim x)))).
Proof. simpl. rewrite trim_idem. reflexivity. Qed.

(** X13: every field of a row built by [normalizeRow] is present and
    trimmed, the source included; for such rows the validity gate of the
    solver, which does not trim, agrees with the gate that trims. *)
Theorem normalizeRow_trimmed (raw : gmap string string) (source : string) :
  let r := normalizeRow raw source in
  trim (day r) = day r /\ trim (period r) = period r
  /\ (exists sb t g rm sf,
        subject r = Some sb /\ teacher r = Some t /\ group r = Some g
        /\ room r = Some rm /\ sourceFile r = Some sf
        /\ trim sb = sb /\ trim t = t /\ trim g = g /\ trim rm = rm
        /\ sf = trim source)
  /\ isValidRow r = specValidRow r.
Proof.
  intros r. split; [apply trim_idem|]. split; [apply trim_idem|]. split.
  - do 5 eexists. repeat split; apply trim_idem.
  - unfold isValidRow, specValidRow, r, normalizeRow. simpl teacher.
    simpl room. simpl group. rewrite !trimmed_truthy.
    destruct (nonEmpty (slotFromRow _)) eqn:E; [|reflexivity].
    rewrite (slotFromRow_dash _ E). reflexivity.
Qed.

Lemma firstTruthy_cases (raw : gmap string string) (keys : list string) :
  (forall k, In k keys -> givesNothing raw k)
  \/ (exists before k after v,
        keys = before ++ k :: after
        /\ (forall k', In k' before -> givesNothing raw k')
        /\ raw !! k = Some v /\ v <> EmptyString).
Proof.
  induction keys as [|k0 keys IH].
  - left. intros k [].
  - assert (Hk0 : givesNothing raw k0
                  \/ exists v, raw !! k0 = Some v /\ v <> EmptyString).
    { unfold givesNothing. destruct (raw !! k0) as [v|]; [|auto].
      destruct (String.eqb_spec v EmptyString) as [-> |Hv]; [auto|].
      right. exists v. auto. }
    destruct Hk0 as [Hn|(v & Hk & Hv)].
    + destruct IH as [Hall|(before & k & after & v & -> & Hb & Hk & Hv)].
      * left. intros k [<-|Hin]; [exact Hn|apply Hall, Hin].
      * right. exists (k0 :: before), k, after, v.
        split; [reflexivity|]. split; [|auto].
        intros k' [<-|Hin]; [exact Hn|apply Hb, Hin].
    + right. exists [], k0, keys, v. split; [reflexivity|].
      split; [intros k' []|auto].
Qed.

Lemma fieldOf_normalizeRow (raw : gmap string string) (source : string)
    (fld : RowField) :
  fieldOf fld (normalizeRow raw source)
  = Some (trim (firstTruthy raw (fieldKeys fld))).
Proof. destruct fld; reflexivity. Qed.

(** X14: each of the six fields that [normalizeRow] reads from a record,
    day, period, subject, teacher, group and room, is the trimmed value of
    the first of its header aliases, in the order the source lists them,
    whose value is not empty, whatever the later aliases hold; the field is
    the empty string when no alias gives a value, as for every field of an
    empty record; and one of the two cases always applies. *)
Theorem normalizeRow_alias_priority (raw : gmap string string)
    (source : string) (fld : RowField) :
  fieldOf fld (normalizeRow raw source)
  = Some (trim (firstTruthy raw (fieldKeys fld)))
  /\ (forall before k after v,
        fieldKeys fld = before ++ k :: after ->
        (forall k', In k' before -> givesNothing raw k') ->
        raw !! k = Some v -> v <> EmptyString ->
        firstTruthy raw (fieldKeys fld) = v
        /\ fieldOf fld (normalizeRow raw source) = Some (trim v))
  /\ ((forall k, In k (fieldKeys fld) -> givesNothing raw k) ->
      fieldOf fld (normalizeRow raw source) = Some EmptyString)
  /\ ((forall k, In k (fieldKeys fld) -> givesNothing raw k)
      \/ (exists before k after v,
            fieldKeys fld = before ++ k :: after
            /\ (forall k', In k' before -> givesNothing raw k')
            /\ raw !! k = Some v /\ v <> EmptyString))
  /\ (forall f, fieldOf f (normalizeRow ∅ source) = Some EmptyString).
Proof.
  split; [apply fieldOf_normalizeRow|].
  split; [|split; [|split; [apply firstTruthy_cases|]]].
  - intros before k after v Hkeys Hb Hk Hv.
    assert (E : firstTruthy raw (fieldKeys fld) = v).
    { rewrite Hkeys.
      apply firstTruthy_first; [assumption..|apply nonEmpty_true, Hv]. }
    split; [exact E|]. rewrite fieldOf_normalizeRow, E. reflexivity.
  - intros Hn. rewrite fieldOf_normalizeRow.
    rewrite (firstTruthy_nothing raw _ Hn). reflexivity.
  - intros f. rewrite fieldOf_normalizeRow.
    rewrite (firstTruthy_nothing ∅ (fieldKeys f)); [reflexivity|].
    intros k _. left. apply lookup_empty.
Qed.

Lemma normalizeRow_alias_priority_witness :
  teacher (normalizeRow {[ "Teacher" := EmptyString; "Staff" := " Bob " ]}
             "a.csv") = Some "Bob"
  /\ room (normalizeRow {[ "Teacher" := EmptyString; "Staff" := " Bob " ]}
             "a.csv") = Some EmptyString.
Proof.
  split.
  - destruct (normalizeRow_alias_priority
                {[ "Teacher" := EmptyString; "Staff" := " Bob " ]} "a.csv"
                FTeacher) as (_ & H & _).
    destruct (H ["teacher"; "Teacher"] "Staff" ["Lecturer"] " Bob ")
      as [_ E].
    + reflexivity.
    + intros k' [<-|[<-|[]]]; [left|right]; reflexivity.
    + reflexivity.
    + discriminate.
    + exact E.
  - destruct (normalizeRow_alias_priority
                {[ "Teacher" := EmptyString; "Staff" := " Bob " ]} "a.csv"
                FRoom) as (_ & _ & H & _).
    apply H. intros k [<-|[<-|[<-|[]]]]; left; reflexivity.
Defined.

Ltac absent_or_same :=
  let k := fresh "k" in
  let H := fresh "H" in
  intros k H;
  repeat (destruct H as [<-|H];
          [first [left; reflexivity | right; reflexivity]|]);
  destruct H.

Lemma recordAt_row (lines : list string) (i : nat) (source : string) :
  normalizeRow (recordAt lines i source) source
  = mkRow (trim (nth (i + 0) lines EmptyString))
      (trim (nth (i + 1) lines EmptyString))
      (Some (trim (nth (i + 2) lines EmptyString)))
      (Some (trim (nth (i + 3) lines EmptyString)))
      (Some (trim (nth (i + 4) lines EmptyString)))
      (Some (trim (nth (i + 5) lines EmptyString)))
      (Some (trim source)).
Proof.
  assert (F : forall (rest : list string) (k v : string),
             (forall k', In k' (k :: rest) ->
                recordAt lines i source !! k' = None
                \/ recordAt lines i source !! k' = Some v) ->
             recordAt lines i source !! k = Some v ->
             firstTruthy (recordAt lines i source) (k :: rest) = v).
  { intros rest k v Hall Hk.
    destruct (nonEmpty v) eqn:Ev.
    - simpl. rewrite Hk, Ev. reflexivity.
    - apply nonEmpty_false in Ev. subst v.
      apply firstTruthy_nothing. exact Hall. }
  unfold normalizeRow, dayKeys, periodKeys, subjectKeys, teacherKeys,
    groupKeys, roomKeys.
  rewrite (F _ _ (nth (i + 0) lines EmptyString)); [|absent_or_same|reflexivity].
  rewrite (F _ _ (nth (i + 1) lines EmptyString)); [|absent_or_same|reflexivity].
  rewrite (F _ _ (nth (i + 2) lines EmptyString)); [|absent_or_same|reflexivity].
  rewrite (F _ _ (nth (i + 3) lines EmptyString)); [|absent_or_same|reflexivity].
  rewrite (F _ _ (nth (i + 4) lines EmptyString)); [|absent_or_same|reflexivity].
  rewrite (F _ _ (nth (i + 5) lines EmptyString)); [|absent_or_same|reflexivity].
  reflexivity.
Qed.

Lemma recordsOf_short (source : string) (ls : list string) :
  (length ls < 6)%nat -> recordsOf source ls = [].
Proof.
  intros H. do 6 (destruct ls as [|? ls]; [reflexivity|]). simpl in H. lia.
Qed.

Lemma first_six (l : list string) :
  (6 <= length l)%nat ->
  l = nth 0 l EmptyString :: nth 1 l EmptyString :: nth 2 l EmptyString
      :: nth 3 l EmptyString :: nth 4 l EmptyString :: nth 5 l EmptyString
      :: skipn 6 l.
Proof.
  intros H. do 6 (destruct l as [|? l]; [simpl in H; lia|]). reflexivity.
Qed.

Lemma skipn_six (lines : list string) (i : nat) :
  (i + 6 <= length lines)%nat ->
  skipn i lines
  = nth (i + 0) lines EmptyString :: nth (i + 1) lines EmptyString
    :: nth (i + 2) lines EmptyString :: nth (i + 3) lines EmptyString
    :: nth (i + 4) lines EmptyString :: nth (i + 5) lines EmptyString
    :: skipn (i + 6) lines.
Proof.
  intros H. rewrite <- !nth_skipn.
  replace (i + 6)%nat with (6 + i)%nat by lia. rewrite <- skipn_skipn.
  apply first_six. rewrite length_skipn. lia.
Qed.

Lemma recordLoop_chunks (source : string) (lines : list string) :
  forall fuel i,
    (length lines <= i + fuel)%nat ->
    recordLoop fuel lines i source = recordsOf source (skipn i lines).
Proof.
  induction fuel as [|fuel IH]; intros i H; simpl.
  - rewrite skipn_all2 by lia. reflexivity.
  - change (length fields) with 6%nat.
    destruct (i + 6 - 1 <? length lines)%nat eqn:E.
    + apply Nat.ltb_lt in E.
      rewrite (skipn_six lines i) by lia. simpl recordsOf.
      rewrite recordAt_row, IH by lia. reflexivity.
    + apply Nat.ltb_ge in E. rewrite recordsOf_short; [reflexivity|].
      rewrite length_skipn. lia.
Qed.

Lemma recordsOf_length (source : string) (ls : list string) :
  length (recordsOf source ls) = (length ls / 6)%nat.
Proof.
  remember (length ls) as n eqn:En. revert ls En.
  induction n as [n IH] using lt_wf_ind. intros ls En.
  destruct (Nat.lt_ge_cases n 6) as [Hlt|Hge].
  - rewrite recordsOf_short by lia. rewrite Nat.div_small by exact Hlt.
    reflexivity.
  - do 6 (destruct ls as [|? ls]; [simpl in En; lia|]).
    simpl recordsOf. simpl length. simpl in En.
    rewrite (IH (length ls) ltac:(lia) ls eq_refl). subst n.
    replace (S (S (S (S (S (S (length ls)))))))
      with (1 * 6 + length ls)%nat by lia.
    rewrite Nat.div_add_l by lia. reflexivity.
Qed.

(** X15: [parseTextTable] returns nothing when no line is the word "day"
    (in any letter case, once trimmed).  Otherwise the lines up to that
    header and the five lines after it are skipped, whatever they say, and
    every following group of six non-blank lines is one row, in order; an
    incomplete last group is dropped.  The number of rows is the number of
    remaining lines divided by six. *)
Theorem parseTextTable_records (text source : string) :
  let lines := textLines text in
  (findIndex isDayHeader lines = None -> parseTextTable text source = [])
  /\ (forall h,
        findIndex isDayHeader lines = Some h ->
        parseTextTable text source = recordsOf source (skipn (h + 6) lines)
        /\ length (parseTextTable text source)
           = ((length lines - (h + 6)) / 6)%nat).
Proof.
  intros lines. unfold parseTextTable. fold lines. split.
  - intros ->. reflexivity.
  - intros h ->. change (length fields) with 6%nat.
    rewrite recordLoop_chunks by lia.
    split; [reflexivity|]. rewrite recordsOf_length, length_skipn.
    reflexivity.
Qed.

Lemma textLines_clean (text : string) :
  List.Forall isCleanLine (textLines text).
Proof.
  apply List.Forall_forall. intros l Hl. unfold textLines in Hl.
  apply filter_In in Hl as [Hl Hne]. apply in_map_iff in Hl as (x & <- & _).
  split; [exact Hne|apply trim_idem].
Qed.

Lemma normalizePeriod_nonEmpty (p : string) :
  nonEmpty p = true -> nonEmpty (normalizePeriod p) = true.
Proof.
  intros H. rewrite normalizePeriod_unfold.
  destruct (matchDigits p); [|exact H].
  destruct (_ && _); [reflexivity|exact H].
Qed.

Lemma prefix_replaced_nonEmpty (p : string) :
  isCleanLine p -> nonEmpty (trim (replacePeriodPrefix p)) = true.
Proof.
  intros [Hne Ht]. unfold replacePeriodPrefix.
  destruct (matchPrefixCI "period" p); [reflexivity|].
  rewrite Ht. exact Hne.
Qed.

Lemma clean_row_valid (a b c d e f source : string) :
  isCleanLine a -> isCleanLine b -> isCleanLine d ->
  isValidRow (mkRow (trim a) (trim b) (Some (trim c)) (Some (trim d))
                (Some (trim e)) (Some (trim f)) (Some (trim source)))
  = true.
Proof.
  intros [Ha Hta] Hb [Hd Htd]. apply isValidRow_iff. simpl. split.
  - rewrite slotFromRow_empty_iff. simpl. rewrite !trim_idem.
    intros [H|H].
    + rewrite Hta in H.
      destruct (normalizeDay_cases a) as [Hin|[E|E]].
      * rewrite H in Hin. simpl in Hin. intuition discriminate.
      * rewrite E in H. subst a. discriminate Ha.
      * apply inherited_not_day in E as [_ E]. rewrite H in E.
        discriminate E.
    + apply nonEmpty_false in H.
      destruct Hb as [Hb Htb]. rewrite Htb in H.
      rewrite normalizePeriod_nonEmpty in H; [discriminate|].
      apply prefix_replaced_nonEmpty. split; assumption.
  - unfold truthy. simpl. rewrite Htd, Hd. reflexivity.
Qed.

Lemma recordsOf_valid (source : string) (ls : list string) :
  List.Forall isCleanLine ls ->
  List.Forall (fun r => isValidRow r = true) (recordsOf source ls).
Proof.
  remember (length ls) as n eqn:En. revert ls En.
  induction n as [n IH] using lt_wf_ind. intros ls En Hc.
  do 6 (destruct ls as [|? ls]; [constructor|]).
  simpl recordsOf.
  repeat match goal with
         | H : List.Forall _ (_ :: _) |- _ =>
             apply List.Forall_cons_iff in H as [? ?]
         end.
  constructor; [apply clean_row_valid; assumption|].
  apply (IH (length ls)); [simpl in En; lia|reflexivity|assumption].
Qed.

Lemma Forall_skipn (P : string -> Prop) (n : nat) (l : list string) :
  List.Forall P l -> List.Forall P (skipn n l).
Proof.
  intros H. rewrite <- (firstn_skipn n l) in H.
  apply List.Forall_app in H. tauto.
Qed.

Lemma filter_all (rows : list TimetableRow) :
  List.Forall (fun r => isValidRow r = true) rows ->
  List.filter isValidRow rows = rows.
Proof.
  induction 1 as [|r rows Hr _ IH]; simpl; [reflexivity|].
  rewrite Hr, IH. reflexivity.
Qed.

(** X16: no row parsed from a text table is dropped by the solver: every
    such row passes the validity gate, so the Assignments of the pass are
    the parsed rows, one for one and in order. *)
Theorem parsed_rows_all_assigned (text source : string) :
  let rows := parseTextTable text source in
  List.Forall (fun r => isValidRow r = true) rows
  /\ map row (assignments (mergeAndResolve rows)) = rows
  /\ length (assignments (mergeAndResolve rows)) = length rows.
Proof.
  intros rows.
  assert (Hv : List.Forall (fun r => isValidRow r = true) rows).
  { unfold rows.
    destruct (parseTextTable_records text source) as [Hnone Hsome].
    destruct (findIndex isDayHeader (textLines text)) as [h|] eqn:E.
    - destruct (Hsome h eq_refl) as [-> _].
      apply recordsOf_valid, Forall_skipn, textLines_clean.
    - rewrite (Hnone eq_refl). constructor. }
  assert (Hm : map row (assignments (mergeAndResolve rows)) = rows)
    by (rewrite assignments_rows; apply filter_all, Hv).
  split; [exact Hv|]. split; [exact Hm|].
  rewrite <- Hm at 2. rewrite length_map. reflexivity.
Qed.

(** ** The pass is forward-only *)

(** X17: rows that come later never change what earlier rows were given:
    the Assignments of a longer input start with the Assignments of the
    shorter one, followed by one Assignment for each valid row added. *)
Theorem earlier_assignments_final (rows more : list TimetableRow) :
  exists tail,
    assignments (mergeAndResolve (rows ++ more))
    = assignments (mergeAndResolve rows) ++ tail
    /\ map row tail = List.filter isValidRow more.
Proof.
  simpl. unfold mergeState. rewrite List.filter_app, resolveRows_app.
  apply resolveRows_extends.
Qed.

(** ** Archive entry names *)

Lemma allExtChars_dot (b e : string) :
  allExtChars (b +:+ String "." e) = false.
Proof.
  induction b as [|c b IH]; simpl; [reflexivity|].
  rewrite IH. apply andb_false_r.
Qed.

Lemma stripExtension_ext (base ext : string) :
  nonEmpty ext = true -> allExtChars ext = true ->
  stripExtension (base +:+ String "." ext) = base.
Proof.
  intros Hn He. induction base as [|c b IH]; simpl.
  - rewrite Hn, He. reflexivity.
  - rewrite allExtChars_dot, andb_false_r, IH. reflexivity.
Qed.

Lemma stripExtension_no_dot (s : string) :
  includesChar "." s = false -> stripExtension s = s.
Proof.
  induction s as [|c s IH]; simpl; [reflexivity|].
  intros H. apply orb_false_iff in H as [Hc Hs].
  rewrite Hc, IH by exact Hs. reflexivity.
Qed.

(** X18: the archive entry of a source file is "resolved_", the name
    without its last extension, and ".docx"; a name without a dot is kept
    whole.  Hence two sources whose names differ only in the extension are
    written to the same entry. *)
Theorem zip_entry_name (base ext : string) :
  nonEmpty ext = true -> allExtChars ext = true ->
  stripExtension (base +:+ String "." ext) = base
  /\ zipEntryName (base +:+ String "." ext)
     = "resolved_" +:+ base +:+ ".docx"
  /\ (forall ext', nonEmpty ext' = true -> allExtChars ext' = true ->
        zipEntryName (base +:+ String "." ext')
        = zipEntryName (base +:+ String "." ext))
  /\ (forall s, includesChar "." s = false ->
        zipEntryName s = "resolved_" +:+ s +:+ ".docx").
Proof.
  intros Hn He. split; [apply stripExtension_ext; assumption|].
  unfold zipEntryName. split; [|split].
  - rewrite stripExtension_ext by assumption. reflexivity.
  - intros ext' Hn' He'. rewrite !stripExtension_ext by assumption.
    reflexivity.
  - intros s Hs. rewrite stripExtension_no_dot by exact Hs. reflexivity.
Qed.

Lemma zip_entry_name_witness :
  zipEntryName "week.1.pdf" = "resolved_week.1.docx".
Proof.
  destruct (zip_entry_name "week.1" "pdf" eq_refl eq_refl) as (_ & H & _).
  exact H.
Defined.

(** ** Samples *)

Example textLines_sample :
  textLines ("a" +:+ carriageReturn +:+ newline +:+ newline +:+ "  b "
             +:+ newline +:+ carriageReturn)
  = ["a"; "b"].
Proof. vm_compute. reflexivity. Qed.

Example parseTextTable_sample :
  parseTextTable sampleTable "week.docx"
  = [mkRow "Monday" "Period 1" (Some "Math") (Some "Alice") (Some "G1")
       (Some "R1") (Some "week.docx")]
  /\ map assignedSlot
       (assignments (mergeAndResolve (parseTextTable sampleTable "week.docx")))
     = ["Mon-P1"].
Proof. split; vm_compute; reflexivity. Qed.

Example zipEntryName_samples :
  zipEntryName "a.b.docx" = "resolved_a.b.docx"
  /\ zipEntryName "dir.x/file" = "resolved_dir.x/file.docx"
  /\ zipEntryName "file." = "resolved_file..docx"
  /\ zipEntryName ".docx" = "resolved_.docx".
Proof. repeat split; vm_compute; reflexivity. Qed.
